(** * Activator session affinity and load-balancing policies

    A shallow embedding of the activator's request path in
    [pkg/activator/handler] (context handler with the sticky-revision
    loop), [pkg/activator/net] (load-balancing policies with session
    affinity) and [pkg/activator/store] (key/value store client), and
    the properties of that code. *)

From Stdlib Require Import ZArith Ascii String Bool Lia.
From stdpp Require Import gmap strings list fin_maps.

Local Open Scope string_scope.

(** ** Outcomes: a Go call either returns or panics *)

Inductive outcome (A : Type) : Type :=
  | Ok (a : A)
  | Panic.
Arguments Ok {A} a.
Arguments Panic {A}.

#[global] Instance outcome_bind : MBind outcome := fun A B k m =>
  match m with
  | Ok a => k a
  | Panic => Panic
  end.

(** ** The parts of Go's [strings], [strconv] and [net/textproto] used *)

(** [strings.TrimPrefix]. *)
Definition TrimPrefix (s pre : string) : string :=
  if String.prefix pre s
  then String.substring (String.length pre) (String.length s - String.length pre) s
  else s.

(** [strings.Split] for a one-byte separator (the code splits on a slash). *)
Fixpoint Split (s : string) (sep : ascii) : list string :=
  match s with
  | EmptyString => [EmptyString]
  | String c r =>
      if Ascii.eqb c sep then EmptyString :: Split r sep
      else match Split r sep with
           | h :: t => String c h :: t
           | [] => [String c EmptyString]
           end
  end.

(** [strings.SplitN] for a one-byte separator and a count [n >= 0]:
    at most [n] pieces, the last one holding the unsplit rest. *)
Fixpoint SplitN (s : string) (sep : ascii) (n : nat) {struct s} : list string :=
  match n with
  | O => []
  | S O => [s]
  | S (S m as n') =>
      match s with
      | EmptyString => [EmptyString]
      | String c r =>
          if Ascii.eqb c sep then EmptyString :: SplitN r sep n'
          else match SplitN r sep n with
               | h :: t => String c h :: t
               | [] => [String c EmptyString]
               end
      end
  end.

Definition digit (c : ascii) : option Z :=
  let n := nat_of_ascii c in
  if (48 <=? n)%nat && (n <=? 57)%nat then Some (Z.of_nat (n - 48)) else None.

Fixpoint digits (s : string) (acc : Z) : option Z :=
  match s with
  | EmptyString => Some acc
  | String c r =>
      match digit c with
      | Some d => digits r (10 * acc + d)%Z
      | None => None
      end
  end.

(** [strconv.Atoi]: an optional sign and at least one decimal digit, in the
    range of a 64-bit [int]; [None] stands for a non-nil error. *)
Definition Atoi (s : string) : option Z :=
  let '(neg, body) :=
    match s with
    | String "-"%char r => (true, r)
    | String "+"%char r => (false, r)
    | _ => (false, s)
    end in
  match body with
  | EmptyString => None
  | _ =>
      match digits body 0%Z with
      | Some v =>
          let n := if neg then (- v)%Z else v in
          if ((- 2 ^ 63 <=? n) && (n <=? 2 ^ 63 - 1))%Z then Some n else None
      | None => None
      end
  end.

(** Go's indexing [parts[n]] with an [int] index: out of range panics. *)
Definition index {A : Type} (l : list A) (n : Z) : outcome A :=
  if (n <? 0)%Z then Panic
  else match l !! Z.to_nat n with
       | Some x => Ok x
       | None => Panic
       end.

(** [textproto]'s token bytes and canonical header keys. *)
Definition validHeaderFieldByte (c : ascii) : bool :=
  let n := nat_of_ascii c in
  ((48 <=? n) && (n <=? 57) || (65 <=? n) && (n <=? 90) || (97 <=? n) && (n <=? 122)
   || existsb (Nat.eqb n) [33; 35; 36; 37; 38; 39; 42; 43; 45; 46; 94; 95; 96; 124; 126])%nat.

Definition isLower (c : ascii) : bool :=
  let n := nat_of_ascii c in ((97 <=? n) && (n <=? 122))%nat.
Definition isUpper (c : ascii) : bool :=
  let n := nat_of_ascii c in ((65 <=? n) && (n <=? 90))%nat.

Fixpoint canonicalize (upper : bool) (s : string) : string :=
  match s with
  | EmptyString => EmptyString
  | String c r =>
      let c' :=
        if upper && isLower c then ascii_of_nat (nat_of_ascii c - 32)
        else if negb upper && isUpper c then ascii_of_nat (nat_of_ascii c + 32)
        else c in
      String c' (canonicalize (Ascii.eqb c' "-"%char) r)
  end.

Fixpoint allBytes (f : ascii -> bool) (s : string) : bool :=
  match s with
  | EmptyString => true
  | String c r => f c && allBytes f r
  end.

Definition CanonicalMIMEHeaderKey (s : string) : string :=
  if allBytes validHeaderFieldByte s then canonicalize true s else s.

(** ** [net/http] requests, as far as the code reads and writes them *)

(** [http.Header] and [url.Values] are both [map[string][]string]. *)
Abbreviation Values := (gmap string (list string)).

Definition Values_Get (v : Values) (key : string) : string :=
  match v !! key with
  | Some (x :: _) => x
  | _ => ""
  end.

Definition Header_Get (h : Values) (key : string) : string :=
  Values_Get h (CanonicalMIMEHeaderKey key).

Definition Header_Add (h : Values) (key value : string) : Values :=
  let k := CanonicalMIMEHeaderKey key in
  <[k := (default [] (h !! k) ++ [value])%list]> h.

Record Request : Type := mkRequest {
  Header : Values;
  Host : string;
  Path : string;      (* r.URL.Path *)
  Query : Values;     (* r.URL.Query() *)
}.

Definition withHeader (r : Request) (h : Values) : Request :=
  {| Header := h; Host := Host r; Path := Path r; Query := Query r |}.

(** Reading a Go [map[string]string]: a missing key reads as the empty string. *)
Definition annot (a : gmap string string) (k : string) : string :=
  default "" (a !! k).

Definition nonempty (s : string) : bool := negb (String.eqb s "").

(** ** [pkg/activator/store]: the client of the shared key/value store

    The store is a finite map from keys to values.  Every command is one
    atomic step of the store; transport errors are not modelled (the
    callers drop the error value of every call). *)

Module store.

(** [GET] read through [redis.String]: a missing key reads as the empty
    string. *)
Definition Get (kv : gmap string string) (key : string) : string :=
  default "" (kv !! key).

(** [SET]. *)
Definition Set_ (kv : gmap string string) (key value : string) : gmap string string :=
  <[key := value]> kv.

(** The script of [Del]: delete the key when it holds exactly [value]. *)
Definition Del (kv : gmap string string) (key value : string) : Z * gmap string string :=
  if decide (kv !! key = Some value) then (1%Z, delete key kv) else (0%Z, kv).

(** The script of [CAS]: swap when the key holds [expected], or when it
    is unset and [expected] is the empty string. *)
Definition CAS (kv : gmap string string) (key expected desired : string)
  : bool * gmap string string :=
  if bool_decide (kv !! key = Some expected)
     || bool_decide (kv !! key = None) && String.eqb expected ""
  then (true, <[key := desired]> kv)
  else (false, kv).

(** Modelled from the spec: the [CAS] that the context handler calls
    returns a string, and that variant is not among the sources.  After a
    swap the key holds the desired value, and when the swap fails "the
    store returns the actual current value"; the swap condition is the
    one of the script above. *)
Definition CASValue (kv : gmap string string) (key expected desired : string)
  : string * gmap string string :=
  let '(swapped, kv') := CAS kv key expected desired in
  (if swapped then desired else Get kv key, kv').

End store.

(** ** Backend trackers *)

(** Modelled from the spec: [podTracker] is declared outside the sources.
    A tracker has an immutable destination address, a signed weight, and a
    count of outstanding requests bounded by its concurrency cap. *)
Record podTracker : Type := mkTracker {
  dest : string;
  weight : Z;
  outstanding : nat;
  maxConcurrency : nat;
}.

(** Modelled from the spec: a tracker below its concurrency cap has
    capacity ([podTracker]'s methods are declared outside the sources). *)
Definition hasCapacity (t : podTracker) : bool :=
  (outstanding t <? maxConcurrency t)%nat.

(** Modelled from the spec: the tracker once [Reserve] has claimed one
    unit of its capacity. *)
Definition claimed (t : podTracker) : podTracker :=
  mkTracker (dest t) (weight t) (S (outstanding t)) (maxConcurrency t).

(** Modelled from the spec: [Reserve] claims one unit of capacity and
    fails, changing nothing, when the tracker is at its cap. *)
Definition Reserve (t : podTracker) : option podTracker :=
  if hasCapacity t then Some (claimed t) else None.

(** Modelled from the spec: the release function that [Reserve] returns
    gives the unit back. *)
Definition release (t : podTracker) : podTracker :=
  mkTracker (dest t) (weight t) (pred (outstanding t)) (maxConcurrency t).

(** Modelled from the spec: [getWeight] is a snapshot read of the weight,
    [increaseWeight] and [decreaseWeight] move it by one. *)
Definition getWeight (t : podTracker) : Z := weight t.

Definition increaseWeight (t : podTracker) : podTracker :=
  mkTracker (dest t) (weight t + 1)%Z (outstanding t) (maxConcurrency t).

Definition decreaseWeight (t : podTracker) : podTracker :=
  mkTracker (dest t) (weight t - 1)%Z (outstanding t) (maxConcurrency t).

(** ** [pkg/activator/net]: load-balancing policies with session affinity *)

Module net.

(** The state a selection call works on: the target set (the trackers
    behind [targets []*podTracker], a tracker being named by its
    position) and the affinity store. *)
Record World : Type := mkWorld {
  trackers : list podTracker;
  kv : gmap string string;
}.

Definition withTrackers (w : World) (ts : list podTracker) : World :=
  mkWorld ts (kv w).
Definition withKv (w : World) (m : gmap string string) : World :=
  mkWorld (trackers w) m.

(** The first component of a policy's result, as data. *)
Inductive callback : Type :=
  | noop
  | releaseOf (p : nat)          (* the [cb] returned by [targets[p].Reserve] *)
  | decreaseWeightOf (p : nat).  (* [targets[p].decreaseWeight] *)

Definition call (cb : callback) (w : World) : World :=
  match cb with
  | noop => w
  | releaseOf p => withTrackers w (alter release p (trackers w))
  | decreaseWeightOf p => withTrackers w (alter decreaseWeight p (trackers w))
  end.

(** What other requests may do to the shared state while a call runs:
    [before] acts between the pick of a candidate and the read of
    [setSession], [during] between that read and its write. *)
Record Env : Type := mkEnv {
  before : World -> World;
  during : World -> World;
}.

Definition quiet : Env := mkEnv (fun w => w) (fun w => w).

(** The value attached to the context by [WithRequestAndAnnotations]. *)
Record ctxpair : Type := mkPair {
  request : Request;
  annotations : gmap string string;
}.

Definition sessionFrom (p : ctxpair) : outcome string :=
  let session := Header_Get (Header (request p)) "K-Session" in
  if nonempty session then Ok session else
  let p1 := annot (annotations p) "activator.knative.dev/session-header" in
  if nonempty p1 then Ok (Header_Get (Header (request p)) p1) else
  let p2 := annot (annotations p) "activator.knative.dev/session-query" in
  if nonempty p2 then Ok (Values_Get (Query (request p)) p2) else
  let p3 := annot (annotations p) "activator.knative.dev/session-path" in
  if nonempty p3 then
    match Atoi p3 with
    | Some n =>
        let parts := Split (TrimPrefix (Path (request p)) "/") "/" in
        if (n <? Z.of_nat (length parts))%Z then index parts n else Ok ""
    | None => Ok ""
    end
  else Ok "".

Definition hasDest (d : string) (t : podTracker) : Prop := d = dest t.

#[global] Instance hasDest_dec d t : Decision (hasDest d t) :=
  decide (d = dest t).

(** [getSession]: the tracker bound to the session, if it is in the set. *)
Definition getSession (p : ctxpair) (w : World) : outcome (option nat * World) :=
  session ← sessionFrom p;
  if nonempty session then
    let d := store.Get (kv w) session in
    match (if nonempty d then list_find (hasDest d) (trackers w) else None) with
    | Some (i, _) => Ok (Some i, w)
    | None => Ok (None, withKv w (store.Del (kv w) session d).2)
    end
  else Ok (None, w).

(** [setSession]: bind the session to the pick unless it is bound elsewhere. *)
Definition setSession (e : Env) (p : ctxpair) (pick : string) (w : World)
  : outcome (bool * World) :=
  session ← sessionFrom p;
  if nonempty session then
    let d := store.Get (kv w) session in
    if nonempty d && negb (String.eqb d pick) then Ok (false, w)
    else
      let w' := during e w in
      Ok (true, withKv w' (store.Set_ (kv w') session pick))
  else Ok (true, w).

(** The body shared by the policies once [Reserve] on [targets[q]]
    succeeded with the tracker state [t']. *)
Definition reserved (e : Env) (p : ctxpair) (w : World) (q : nat) (t' : podTracker)
  : outcome (bool * World) :=
  let w1 := before e (withTrackers w (<[q := t']> (trackers w))) in
  '(ok, w2) ← setSession e p (dest t') w1;
  if ok : bool then Ok (true, w2) else Ok (false, call (releaseOf q) w2).

(** The loop of [firstAvailableLBPolicy]: [i] is the position reached and
    [n] the number of targets left. *)
Fixpoint firstAvailable_loop (e : Env) (p : ctxpair) (w : World) (n i : nat)
  : outcome (callback * option nat * World) :=
  match n with
  | O => Ok (noop, None, w)
  | S n' =>
      match trackers w !! i with
      | None => Panic
      | Some t =>
          match Reserve t with
          | Some t' =>
              '(ok, w2) ← reserved e p w i t';
              if ok : bool then Ok (releaseOf i, Some i, w2) else Ok (noop, None, w2)
          | None => firstAvailable_loop e p w n' (S i)
          end
      end
  end.

(** [firstAvailableLBPolicy] after the session lookup. *)
Definition firstAvailable_select (e : Env) (p : ctxpair) (w : World)
  : outcome (callback * option nat * World) :=
  firstAvailable_loop e p w (length (trackers w)) 0.

Definition firstAvailableLBPolicy (e : Env) (p : ctxpair) (w : World)
  : outcome (callback * option nat * World) :=
  '(pick, w) ← getSession p w;
  match pick with
  | Some i => Ok (noop, Some i, w)
  | None => firstAvailable_select e p w
  end.

(** The loop of the round-robin policy; the last component of the result
    is the cursor [idx] the closure keeps. *)
Fixpoint roundRobin_loop (e : Env) (p : ctxpair) (w : World) (idx l n i : nat)
  : outcome (callback * option nat * World * nat) :=
  match n with
  | O => Ok (noop, None, w, idx)
  | S n' =>
      let q := ((idx + i) mod l)%nat in
      match trackers w !! q with
      | None => Panic
      | Some t =>
          match Reserve t with
          | Some t' =>
              '(ok, w2) ← reserved e p w q t';
              if ok : bool then Ok (releaseOf q, Some q, w2, (q + 1)%nat)
              else Ok (noop, None, w2, idx)
          | None => roundRobin_loop e p w idx l n' (S i)
          end
      end
  end.

(** The cursor after "the number of trackers might have shrunk". *)
Definition wrapped (idx l : nat) : nat := if (l <=? idx)%nat then O else idx.

(** The round-robin policy after the session lookup. *)
Definition roundRobin_select (e : Env) (idx : nat) (p : ctxpair) (w : World)
  : outcome (callback * option nat * World * nat) :=
  let l := length (trackers w) in
  let idx := wrapped idx l in
  roundRobin_loop e p w idx l l 0.

(** The closure [newRoundRobinPolicy] returns, with its cursor [idx] passed
    in and handed back. *)
Definition roundRobinPolicy (e : Env) (idx : nat) (p : ctxpair) (w : World)
  : outcome (callback * option nat * World * nat) :=
  '(pick, w) ← getSession p w;
  match pick with
  | Some i => Ok (noop, Some i, w, idx)
  | None => roundRobin_select e idx p w
  end.

(** [k] consecutive calls of one round-robin policy: the picks in order,
    the final state and the final cursor. *)
Fixpoint roundRobin_calls (e : Env) (k idx : nat) (p : ctxpair) (w : World)
  : outcome (list (option nat) * World * nat) :=
  match k with
  | O => Ok ([], w, idx)
  | S k' =>
      '(_, pick, w, idx) ← roundRobinPolicy e idx p w;
      '(picks, w, idx) ← roundRobin_calls e k' idx p w;
      Ok (pick :: picks, w, idx)
  end.

(** [rand.Intn n] on a raw draw [r]: a value below [n]. *)
Definition Intn (r n : nat) : nat := (r mod n)%nat.

(** The two contestants of [randomChoice2Policy] for [l] targets. *)
Definition contestants (raw1 raw2 l : nat) : nat * nat :=
  if (2 <? l)%nat then
    let r1 := Intn raw1 l in
    let r2 := Intn raw2 (l - 1) in
    (r1, if (r1 <=? r2)%nat then S r2 else r2)
  else (0%nat, 1%nat).

(** The end shared by both branches of [randomChoice2Policy]. *)
Definition choose (e : Env) (p : ctxpair) (w : World) (q : nat) (t : podTracker)
  : outcome (callback * option nat * World) :=
  '(ok, w2) ← setSession e p (dest t) (before e w);
  if ok : bool
  then Ok (decreaseWeightOf q, Some q,
           withTrackers w2 (alter increaseWeight q (trackers w2)))
  else Ok (noop, None, w2).

Definition at_ (ts : list podTracker) (i : nat) : outcome podTracker :=
  match ts !! i with
  | Some t => Ok t
  | None => Panic
  end.

(** [randomChoice2Policy] after the session lookup; [raw1] and [raw2] are
    the raw draws behind the two calls of [rand.Intn]. *)
Definition randomChoice2_select (e : Env) (raw1 raw2 : nat) (p : ctxpair) (w : World)
  : outcome (callback * option nat * World) :=
  let l := length (trackers w) in
  if (l =? 1)%nat then
    pick ← at_ (trackers w) 0;
    choose e p w 0 pick
  else
    let '(r1, r2) := contestants raw1 raw2 l in
    pick ← at_ (trackers w) r1;
    alt ← at_ (trackers w) r2;
    if (getWeight alt <? getWeight pick)%Z
    then choose e p w r2 alt
    else choose e p w r1 pick.

Definition randomChoice2Policy (e : Env) (raw1 raw2 : nat) (p : ctxpair) (w : World)
  : outcome (callback * option nat * World) :=
  '(pick, w) ← getSession p w;
  match pick with
  | Some i => Ok (noop, Some i, w)
  | None => randomChoice2_select e raw1 raw2 p w
  end.

(** [randomLBPolicy]: a random target, whatever its capacity and the
    session; [rand.Intn] panics on a bound of zero. *)
Definition randomLBPolicy (raw : nat) (w : World)
  : outcome (callback * option nat * World) :=
  let l := length (trackers w) in
  if (l =? 0)%nat then Panic
  else
    _ ← at_ (trackers w) (Intn raw l);
    Ok (noop, Some (Intn raw l), w).

End net.

(** ** [pkg/activator/handler]: the context handler *)

Module handler.

(** [types.NamespacedName] and its [String] method; [types.Separator] is
    the slash. *)
Record NamespacedName : Type := mkNamespacedName {
  Namespace : string;
  Name : string;
}.

Definition Separator : ascii := "/"%char.

Definition NamespacedName_String (n : NamespacedName) : string :=
  Namespace n ++ String Separator (Name n).

(** The objects the listers return, as far as the handler reads them. *)
Record Revision : Type := mkRevision {
  revisionName : string;
  Labels : gmap string string;
}.

Record Service : Type := mkService {
  Annotations : gmap string string;
}.

(** Lister errors, as [sendError] tells them apart. *)
Inductive error : Type :=
  | NotFound
  | OtherError.

(** What the handler is built from and the constants it imports. *)
Record Collaborators : Type := mkCollaborators {
  revisionLister : string -> string -> Revision + error;
  serviceLister : string -> string -> Service + error;
  RevisionHeaderNamespace : string;
  RevisionHeaderName : string;
  ServiceLabelKey : string;
  clusterDomainName : string;
}.

Definition stickySessionHeaderName : string := "K-Session".
Definition stickyRevisionHeaderName : string := "K-Revision".

Definition addStickySessionHeader (r : Request) (session : string) : string * Request :=
  if nonempty session
  then (session, withHeader r (Header_Add (Header r) stickySessionHeaderName session))
  else (session, r).

(** The block that reads a path segment, which [getSession] has twice:
    [Ok None] when the block does not return. *)
Definition pathSegment (r : Request) (p : string) : outcome (option string) :=
  if nonempty p then
    match Atoi p with
    | Some n =>
        let parts := Split (TrimPrefix (Path r) "/") "/" in
        if (n <? Z.of_nat (length parts))%Z
        then x ← index parts n; Ok (Some x)
        else Ok None
    | None => Ok None
    end
  else Ok None.

Definition getSession (r : Request) (annotations : gmap string string)
  : outcome (string * Request) :=
  let p := annot annotations "activator.knative.dev/deactivate" in
  let r := if nonempty p then withHeader r (Header_Add (Header r) "K-Deactivate" p) else r in
  let session := Header_Get (Header r) stickySessionHeaderName in
  if nonempty session then Ok (session, r) else
  let p := annot annotations "activator.knative.dev/sticky-session-header-name" in
  if nonempty p then Ok (addStickySessionHeader r (Header_Get (Header r) p)) else
  let p := annot annotations "activator.knative.dev/sticky-session-query-parameter" in
  if nonempty p then Ok (addStickySessionHeader r (Values_Get (Query r) p)) else
  seg ← pathSegment r (annot annotations "activator.knative.dev/sticky-session-path-segment");
  match seg with
  | Some x => Ok (addStickySessionHeader r x)
  | None =>
      let p := annot annotations "activator.knative.dev/sticky-revision-header-name" in
      if nonempty p then Ok (Header_Get (Header r) p, r) else
      let p := annot annotations "activator.knative.dev/sticky-revision-query-parameter" in
      if nonempty p then Ok (Values_Get (Query r) p, r) else
      seg ← pathSegment r (annot annotations "activator.knative.dev/sticky-revision-path-segment");
      match seg with
      | Some x => Ok (x, r)
      | None => Ok (Header_Get (Header r) stickyRevisionHeaderName, r)
      end
  end.

(** A run of code that may loop: it returns, panics, or is still looping
    when the fuel is spent. *)
Inductive run (A : Type) : Type :=
  | Done (a : A)
  | Panicked
  | OutOfFuel.
Arguments Done {A} a.
Arguments Panicked {A}.
Arguments OutOfFuel {A}.

(** The [for] loop of [ServeHTTP].  [churn i] is what other clients do to
    the store before the [i]-th compare-and-swap of this request; [v] is
    the expected value carried from the previous iteration. *)
Fixpoint stickyLoop (c : Collaborators) (churn : nat -> gmap string string -> gmap string string)
    (session : string) (revID : NamespacedName) (revision : Revision)
    (fuel i : nat) (kv : gmap string string) (v : string)
  : run (NamespacedName * Revision * gmap string string) :=
  match fuel with
  | O => OutOfFuel
  | S fuel' =>
      let '(v, kv) :=
        store.CASValue (churn i kv) ("rev/" ++ session) v (NamespacedName_String revID) in
      if String.eqb v (NamespacedName_String revID) then Done (revID, revision, kv)
      else
        let parts := SplitN v Separator 2 in
        match index parts 0, index parts 1 with
        | Ok namespace, Ok name =>
            match revisionLister c namespace name with
            | inl stickyRevision =>
                Done (mkNamespacedName namespace name, stickyRevision, kv)
            | inr _ => stickyLoop c churn session revID revision fuel' (S i) kv v
            end
        | _, _ => Panicked
        end
  end.

(** What [ServeHTTP] does with the response writer or the next handler. *)
Inductive response : Type :=
  | Forward (revision : Revision) (revID : NamespacedName) (r : Request)
  | Error (status : nat).

Definition sendError (err : error) : response :=
  match err with
  | NotFound => Error 404
  | OtherError => Error 500
  end.

Definition ServeHTTP (c : Collaborators) (churn : nat -> gmap string string -> gmap string string)
    (fuel : nat) (r : Request) (kv : gmap string string)
  : run (response * gmap string string) :=
  let namespace := Header_Get (Header r) (RevisionHeaderNamespace c) in
  let name := Header_Get (Header r) (RevisionHeaderName c) in
  let '(name, namespace) :=
    if String.eqb name "" || String.eqb namespace "" then
      match SplitN (Host r) "."%char 4 with
      | [p0; p1; p2; p3] =>
          if String.eqb p2 "svc"
             && String.eqb (hd "" (SplitN p3 ":"%char 2)) (clusterDomainName c)
          then (p0, p1) else (name, namespace)
      | _ => (name, namespace)
      end
    else (name, namespace) in
  let revID := mkNamespacedName namespace name in
  match revisionLister c namespace name with
  | inr err => Done (sendError err, kv)
  | inl revision =>
      let serviceName := annot (Labels revision) (ServiceLabelKey c) in
      match serviceLister c namespace serviceName with
      | inr err => Done (sendError err, kv)
      | inl service =>
          match getSession r (Annotations service) with
          | Panic => Panicked
          | Ok (session, r) =>
              if nonempty session then
                match stickyLoop c churn session revID revision fuel 0 kv "" with
                | Done (revID, revision, kv) => Done (Forward revision revID r, kv)
                | Panicked => Panicked
                | OutOfFuel => OutOfFuel
                end
              else Done (Forward revision revID r, kv)
          end
      end
  end.

End handler.

(** * Vocabulary of the statements *)

(** The session is bound in [w], and not to [pick]. *)
Definition bound_elsewhere (s pick : string) (w : net.World) : Prop :=
  store.Get (net.kv w) s <> "" /\ store.Get (net.kv w) s <> pick.

(** The candidate of [randomChoice2Policy]: the only tracker, or the
    contestant of lower weight, the first one on a tie. *)
Definition candidate2 (raw1 raw2 : nat) (ts : list podTracker) (q : nat) (t : podTracker)
  : Prop :=
  (length ts = 1%nat /\ q = 0%nat /\ ts !! 0%nat = Some t) \/
  (length ts <> 1%nat /\
   exists t1 t2,
     ts !! (net.contestants raw1 raw2 (length ts)).1 = Some t1 /\
     ts !! (net.contestants raw1 raw2 (length ts)).2 = Some t2 /\
     (q, t) = if (getWeight t2 <? getWeight t1)%Z
              then ((net.contestants raw1 raw2 (length ts)).2, t2)
              else ((net.contestants raw1 raw2 (length ts)).1, t1)).

(** The session key resolver as a list of rules, the first match winning.
    A rule yields the key it found and whether the key is recorded back
    onto the request as the canonical sticky-session header. *)
Module resolver.

Definition rule : Type := Request -> gmap string string -> option (string * bool).

Definition explicitHeader : rule := fun r _ =>
  let v := Header_Get (Header r) "K-Session" in
  if nonempty v then Some (v, false) else None.

Definition configuredHeader (key : string) (record : bool) : rule := fun r a =>
  if nonempty (annot a key) then Some (Header_Get (Header r) (annot a key), record)
  else None.

Definition configuredQuery (key : string) (record : bool) : rule := fun r a =>
  if nonempty (annot a key) then Some (Values_Get (Query r) (annot a key), record)
  else None.

Definition segments (r : Request) : list string :=
  Split (TrimPrefix (Path r) "/") "/".

(** The segment a configured index identifies, if it identifies one. *)
Definition configuredPath (key : string) (record : bool) : rule := fun r a =>
  match Atoi (annot a key) with
  | Some n =>
      if (0 <=? n)%Z then (fun x => (x, record)) <$> segments r !! Z.to_nat n
      else None
  | None => None
  end.

Definition revisionHeader : rule := fun r _ =>
  Some (Header_Get (Header r) "K-Revision", false).

Definition first_match (rules : list rule) (r : Request) (a : gmap string string)
  : string * bool :=
  default ("", false) (head (omap (fun f : rule => f r a) rules)).

(** The resolver in the words of the specification: five rules. *)
Definition Resolve (r : Request) (a : gmap string string) : string :=
  (first_match
     [explicitHeader;
      configuredHeader "activator.knative.dev/sticky-session-header-name" true;
      configuredQuery "activator.knative.dev/sticky-session-query-parameter" false;
      configuredPath "activator.knative.dev/sticky-session-path-segment" false;
      revisionHeader] r a).1.

(** The rules of [handler.getSession], in its order. *)
Definition handlerRules : list rule :=
  [explicitHeader;
   configuredHeader "activator.knative.dev/sticky-session-header-name" true;
   configuredQuery "activator.knative.dev/sticky-session-query-parameter" true;
   configuredPath "activator.knative.dev/sticky-session-path-segment" true;
   configuredHeader "activator.knative.dev/sticky-revision-header-name" false;
   configuredQuery "activator.knative.dev/sticky-revision-query-parameter" false;
   configuredPath "activator.knative.dev/sticky-revision-path-segment" false;
   revisionHeader].

(** The rules of [net.sessionFrom], in its order. *)
Definition policyRules : list rule :=
  [explicitHeader;
   configuredHeader "activator.knative.dev/session-header" false;
   configuredQuery "activator.knative.dev/session-query" false;
   configuredPath "activator.knative.dev/session-path" false].

(** The request once the deactivate marker is copied onto it. *)
Definition marked (r : Request) (a : gmap string string) : Request :=
  if nonempty (annot a "activator.knative.dev/deactivate")
  then withHeader r (Header_Add (Header r) "K-Deactivate"
                       (annot a "activator.knative.dev/deactivate"))
  else r.

(** The request once a found key is recorded. *)
Definition recorded (r : Request) (found : string * bool) : Request :=
  if found.2 && nonempty found.1
  then withHeader r (Header_Add (Header r) "K-Session" found.1)
  else r.

(** A path-segment annotation that, if it is a number, is not negative. *)
Definition index_not_negative (a : gmap string string) (key : string) : Prop :=
  forall n, Atoi (annot a key) = Some n -> (0 <= n)%Z.

End resolver.

(** Whether the byte [c] occurs in [s]. *)
Fixpoint has_byte (c : ascii) (s : string) : bool :=
  match s with
  | EmptyString => false
  | String x r => Ascii.eqb x c || has_byte c r
  end.

(** The capacity-aware policies behind one interface ([lbPolicy] in the
    source is a function type; these are the three functions of that type
    that consult the session). *)
Module policies.
Import net.

Inductive lbPolicy : Type :=
  | FirstAvailable
  | RoundRobin (idx : nat)
  | RandomChoice2 (raw1 raw2 : nat).

(** A call of a policy; the cursor a round-robin call hands back is
    dropped. *)
Definition run (e : Env) (π : lbPolicy) (p : ctxpair) (w : World)
  : outcome (callback * option nat * World) :=
  match π with
  | FirstAvailable => firstAvailableLBPolicy e p w
  | RoundRobin idx =>
      '(cb, pick, w', _) ← roundRobinPolicy e idx p w; Ok (cb, pick, w')
  | RandomChoice2 raw1 raw2 => randomChoice2Policy e raw1 raw2 p w
  end.

(** What a policy does to the tracker it picks, the release it returns
    for it, and what it asks of it. *)
Definition taken (π : lbPolicy) : podTracker -> podTracker :=
  match π with
  | RandomChoice2 _ _ => increaseWeight
  | _ => claimed
  end.

Definition given_back (π : lbPolicy) : nat -> callback :=
  match π with
  | RandomChoice2 _ _ => decreaseWeightOf
  | _ => releaseOf
  end.

Definition admits (π : lbPolicy) (t : podTracker) : Prop :=
  match π with
  | RandomChoice2 _ _ => True
  | _ => hasCapacity t = true
  end.

(** No tracker of the set is bound to the session [s]. *)
Definition no_bound_tracker (s : string) (w : World) : Prop :=
  s = "" \/ store.Get (kv w) s = "" \/
  list_find (hasDest (store.Get (kv w) s)) (trackers w) = None.

(** The state without the binding of [s], and a store with [s] bound. *)
Definition unbind (s : string) (w : World) : World :=
  if nonempty s then withKv w (delete s (kv w)) else w.

Definition bound_to (s d : string) (m : gmap string string) : gmap string string :=
  if nonempty s then <[s := d]> m else m.

(** The results a call can have when nothing else touches the state. *)
Inductive selection (π : lbPolicy) (s : string) (w : World)
  : callback * option nat * World -> Prop :=
  | sel_bound i t :
      s <> "" -> dest t <> "" -> kv w !! s = Some (dest t) ->
      list_find (hasDest (dest t)) (trackers w) = Some (i, t) ->
      selection π s w (noop, Some i, w)
  | sel_none :
      no_bound_tracker s w ->
      selection π s w (noop, None, unbind s w)
  | sel_picked q t :
      no_bound_tracker s w -> trackers w !! q = Some t -> admits π t ->
      selection π s w
        (given_back π q, Some q,
         mkWorld (<[q := taken π t]> (trackers w)) (bound_to s (dest t) (kv w))).

(** The first position of the set whose tracker has capacity. *)
Definition first_with_capacity (ts : list podTracker) (q : nat) : Prop :=
  (exists t, ts !! q = Some t /\ hasCapacity t = true) /\
  (forall j u, (j < q)%nat -> ts !! j = Some u -> hasCapacity u = false).

End policies.

(** * Inputs of the examples *)

Module sample.
Import net.

Definition tracker (d : string) (used cap : nat) : podTracker := mkTracker d 0 used cap.

(** Three backends with one free slot each. *)
Definition three : list podTracker :=
  [tracker "10.0.0.1" 0 1; tracker "10.0.0.2" 0 1; tracker "10.0.0.3" 0 1].

(** Three backends of weights 5, 2 and 2. *)
Definition weighted : list podTracker :=
  [mkTracker "10.0.0.1" 5 0 1; mkTracker "10.0.0.2" 2 0 1; mkTracker "10.0.0.3" 2 0 1].

(** A request without a session key, and one with the key [abc] in the
    sticky-session header. *)
Definition plain : ctxpair := mkPair (mkRequest ∅ "" "/" ∅) ∅.
Definition sticky : ctxpair :=
  mkPair (mkRequest {["K-Session" := ["abc"]]} "" "/" ∅) ∅.

(** Another request binds [abc] to a backend of its own while this call
    is between its pick and its read of the binding. *)
Definition rival : Env :=
  mkEnv (fun w => withKv w (<["abc" := "10.0.0.9"]> (kv w))) (fun w => w).

(** A request with several candidates for the session key at once, and
    annotations that configure three of the rules. *)
Definition crowded : Request :=
  mkRequest {["X-User" := ["u1"]; "K-Revision" := ["r1"]]} "" "/a/b"
            {["sid" := ["q1"]]}.
Definition crowdedAnnotations : gmap string string :=
  {["activator.knative.dev/sticky-session-query-parameter" := "sid";
    "activator.knative.dev/sticky-session-path-segment" := "0";
    "activator.knative.dev/sticky-revision-header-name" := "x-user"]}.

(** A request with the revision sticky header and a query parameter that
    the annotations configure for the revision. *)
Definition revisionQuery : Request :=
  mkRequest {["K-Revision" := ["r1"]]} "" "/" {["rev" := ["q1"]]}.
Definition revisionQueryAnnotations : gmap string string :=
  {["activator.knative.dev/sticky-revision-query-parameter" := "rev"]}.

(** Two backends with one free slot each. *)
Definition two : list podTracker :=
  [tracker "10.0.0.1" 0 1; tracker "10.0.0.2" 0 1].

(** A second request with the same new session key runs its whole
    first-available call while this one is between the read and the
    write of [setSession]. *)
Definition overlapping : Env :=
  mkEnv (fun w => w)
        (fun w => match firstAvailableLBPolicy quiet sticky w with
                  | Ok (_, _, w') => w'
                  | Panic => w
                  end).

(** The handler's collaborators: one revision [default/hello] of the
    service [hello-svc], which has no annotations. *)
Definition hello : handler.Revision :=
  handler.mkRevision "hello" {["serving.knative.dev/service" := "hello-svc"]}.

Definition cluster : handler.Collaborators :=
  handler.mkCollaborators
    (fun namespace name =>
       if String.eqb namespace "default" && String.eqb name "hello"
       then inl hello else inr handler.NotFound)
    (fun namespace name =>
       if String.eqb namespace "default" && String.eqb name "hello-svc"
       then inl (handler.mkService ∅) else inr handler.NotFound)
    "Knative-Serving-Namespace" "Knative-Serving-Revision"
    "serving.knative.dev/service" "cluster.local".

Definition helloID : handler.NamespacedName :=
  handler.mkNamespacedName "default" "hello".

(** A request for that revision with the session key [abc]. *)
Definition helloRequest : Request :=
  mkRequest {["K-Session" := ["abc"]]} "hello.default.svc.cluster.local:80" "/" ∅.

(** Other clients keep rebinding the session to revisions that are gone. *)
Definition flap (i : nat) : string :=
  if Nat.even i then "gone/a" else "gone/b".
Definition flapping (i : nat) (kv : gmap string string) : gmap string string :=
  <["rev/abc" := flap i]> kv.

(** Nobody else writes the store. *)
Definition still (i : nat) (kv : gmap string string) : gmap string string := kv.

End sample.

(** * Properties *)

Lemma nonempty_true (s : string) : nonempty s = true <-> s <> "".
Proof.
  unfold nonempty. rewrite negb_true_iff. apply String.eqb_neq.
Qed.

Lemma nonempty_false (s : string) : nonempty s = false <-> s = "".
Proof.
  unfold nonempty. rewrite negb_false_iff. apply String.eqb_eq.
Qed.

Lemma bind_Ok {A B : Type} (a : A) (k : A -> outcome B) : (Ok a ≫= k) = k a.
Proof. reflexivity. Qed.

(** ** The Go library functions *)

Example Split_path : Split (TrimPrefix "/a/b/c" "/") "/" = ["a"; "b"; "c"].
Proof. reflexivity. Qed.

Example SplitN_two : SplitN "ns/name/x" "/" 2 = ["ns"; "name/x"].
Proof. reflexivity. Qed.

Example Atoi_neg : Atoi "-1" = Some (-1)%Z.
Proof. reflexivity. Qed.

Example canon_lower : CanonicalMIMEHeaderKey "x-user-id" = "X-User-Id".
Proof. reflexivity. Qed.

Example canon_invalid : CanonicalMIMEHeaderKey "x user" = "x user".
Proof. reflexivity. Qed.

Example Atoi_errors : Atoi "" = None /\ Atoi "-" = None /\ Atoi "1x" = None.
Proof. repeat split. Qed.

(** ** The affinity store *)

Module StoreProps.
Import store.

Lemma Get_Some (kv : gmap string string) k d : kv !! k = Some d -> Get kv k = d.
Proof. unfold Get. intros ->. reflexivity. Qed.

Lemma Get_nonempty (kv : gmap string string) k :
  Get kv k <> "" -> kv !! k = Some (Get kv k).
Proof.
  unfold Get. destruct (kv !! k) as [d|]; simpl; [reflexivity | congruence].
Qed.

(** Whatever [getSession] read, its [Del] leaves the key unset. *)
Lemma Del_observed (kv : gmap string string) k :
  (Del kv k (Get kv k)).2 = delete k kv.
Proof.
  unfold Del, Get.
  destruct (decide (kv !! k = Some (default "" (kv !! k)))) as [H | H]; simpl.
  - reflexivity.
  - symmetry. apply delete_id.
    destruct (kv !! k) as [d|]; [exfalso; apply H |]; reflexivity.
Qed.

(** Delete-if-equals deletes on an exact match only. *)
Lemma Del_match (kv : gmap string string) k d :
  kv !! k = Some d -> Del kv k d = (1%Z, delete k kv).
Proof.
  intros H. unfold Del. destruct (decide (kv !! k = Some d)); [reflexivity | congruence].
Qed.

Lemma Del_mismatch (kv : gmap string string) k d :
  kv !! k <> Some d -> Del kv k d = (0%Z, kv).
Proof.
  intros H. unfold Del. destruct (decide (kv !! k = Some d)); [congruence | reflexivity].
Qed.

End StoreProps.

(** ** The load-balancing policies *)

Module NetProps.
Import store net StoreProps.

#[local] Arguments Reserve : simpl never.

Lemma getSession_nokey p w : sessionFrom p = Ok "" -> getSession p w = Ok (None, w).
Proof. intros H. unfold getSession. rewrite H. reflexivity. Qed.

Lemma getSession_hit p w s d i t :
  sessionFrom p = Ok s -> s <> "" -> kv w !! s = Some d -> d <> "" ->
  list_find (hasDest d) (trackers w) = Some (i, t) ->
  getSession p w = Ok (Some i, w).
Proof.
  intros Hs Hne Hkv Hd Hfind. unfold getSession. rewrite Hs, bind_Ok.
  apply nonempty_true in Hne. rewrite Hne.
  rewrite (Get_Some _ _ _ Hkv).
  apply nonempty_true in Hd. rewrite Hd, Hfind. reflexivity.
Qed.

Lemma getSession_miss p w s :
  sessionFrom p = Ok s -> s <> "" ->
  Get (kv w) s = "" \/ list_find (hasDest (Get (kv w) s)) (trackers w) = None ->
  getSession p w = Ok (None, withKv w (delete s (kv w))).
Proof.
  intros Hs Hne Hmiss. unfold getSession. rewrite Hs, bind_Ok.
  apply nonempty_true in Hne. rewrite Hne.
  rewrite Del_observed.
  destruct (nonempty (Get (kv w) s)) eqn:E; [| reflexivity].
  destruct Hmiss as [H | H].
  - apply nonempty_true in E. contradiction.
  - rewrite H. reflexivity.
Qed.

Lemma getSession_key p w r w0 :
  getSession p w = Ok (r, w0) -> exists s, sessionFrom p = Ok s.
Proof.
  unfold getSession. destruct (sessionFrom p) as [s|]; [eauto | discriminate].
Qed.

(** The lookup never changes the trackers. *)
Lemma getSession_trackers p w r w0 :
  getSession p w = Ok (r, w0) -> trackers w0 = trackers w.
Proof.
  unfold getSession. destruct (sessionFrom p) as [s|]; [| discriminate].
  rewrite bind_Ok. destruct (nonempty s); [| congruence].
  destruct (if nonempty (Get (kv w) s) then _ else _) as [[i t]|];
    intros H; inversion H; reflexivity.
Qed.

(** C4. A call of a capacity-aware policy for a session that is bound in
    the store: when a tracker of the target set has the bound destination,
    each policy returns the first such tracker with the no-op release and
    leaves trackers, store and cursor as they were (nothing reserved, no
    weight changed); when no tracker has it, the delete-if-equals of the
    observed value removes the binding and the policy continues with its
    normal selection on the state without the binding. *)
Theorem bound_session_lookup e idx raw1 raw2 p w s d :
  sessionFrom p = Ok s -> s <> "" -> kv w !! s = Some d -> d <> "" ->
  ((exists t, t ∈ trackers w /\ dest t = d) ->
   exists i t,
     trackers w !! i = Some t /\ dest t = d /\
     (forall j u, trackers w !! j = Some u -> (j < i)%nat -> dest u <> d) /\
     firstAvailableLBPolicy e p w = Ok (noop, Some i, w) /\
     roundRobinPolicy e idx p w = Ok (noop, Some i, w, idx) /\
     randomChoice2Policy e raw1 raw2 p w = Ok (noop, Some i, w)) /\
  ((forall t, t ∈ trackers w -> dest t <> d) ->
   let w' := withKv w (delete s (kv w)) in
   Del (kv w) s d = (1%Z, kv w') /\
   kv w' !! s = None /\
   firstAvailableLBPolicy e p w = firstAvailable_select e p w' /\
   roundRobinPolicy e idx p w = roundRobin_select e idx p w' /\
   randomChoice2Policy e raw1 raw2 p w = randomChoice2_select e raw1 raw2 p w').
Proof.
  intros Hs Hne Hkv Hd. split.
  - intros (t & Hin & Hdest).
    destruct (list_find (hasDest d) (trackers w)) as [[i u]|] eqn:Hfind.
    + assert (Hget : getSession p w = Ok (Some i, w))
        by exact (getSession_hit p w s d i u Hs Hne Hkv Hd Hfind).
      apply list_find_Some in Hfind as (Hi & Hu & Hfirst).
      exists i, u. repeat split.
      * exact Hi.
      * symmetry. exact Hu.
      * intros j v Hj Hlt Hv. apply (Hfirst j v Hj Hlt). symmetry. exact Hv.
      * unfold firstAvailableLBPolicy. rewrite Hget. reflexivity.
      * unfold roundRobinPolicy. rewrite Hget. reflexivity.
      * unfold randomChoice2Policy. rewrite Hget. reflexivity.
    + exfalso. apply list_find_None in Hfind.
      rewrite Forall_forall in Hfind. apply (Hfind t Hin). symmetry. exact Hdest.
  - intros Hnone w'.
    assert (Hget : getSession p w = Ok (None, w')).
    { apply (getSession_miss p w s Hs Hne). right.
      rewrite (Get_Some _ _ _ Hkv). apply list_find_None.
      apply Forall_forall. intros t Hin Ht. apply (Hnone t Hin). symmetry. exact Ht. }
    repeat split.
    + apply Del_match. exact Hkv.
    + apply lookup_delete_eq.
    + unfold firstAvailableLBPolicy. rewrite Hget. reflexivity.
    + unfold roundRobinPolicy. rewrite Hget. reflexivity.
    + unfold randomChoice2Policy. rewrite Hget. reflexivity.
Qed.

Lemma bound_session_lookup_witness :
  firstAvailableLBPolicy quiet sample.sticky
      (mkWorld sample.three {["abc" := "10.0.0.2"]})
    = Ok (noop, Some 1%nat, mkWorld sample.three {["abc" := "10.0.0.2"]}) /\
  roundRobinPolicy quiet 0 sample.sticky
      (mkWorld sample.three {["abc" := "10.0.0.7"]})
    = roundRobin_select quiet 0 sample.sticky (mkWorld sample.three ∅).
Proof.
  split.
  - assert (Hin : exists t, t ∈ sample.three /\ dest t = "10.0.0.2").
    { exists (sample.tracker "10.0.0.2" 0 1). split; [| reflexivity].
      apply (list_elem_of_lookup_2 _ 1%nat). reflexivity. }
    assert (Hkey : "abc" <> "") by discriminate.
    assert (Hval : "10.0.0.2" <> "") by discriminate.
    assert (Hbound : kv (mkWorld sample.three {["abc" := "10.0.0.2"]}) !! "abc"
                     = Some "10.0.0.2") by reflexivity.
    destruct (bound_session_lookup quiet 0 0 0 sample.sticky
                (mkWorld sample.three {["abc" := "10.0.0.2"]}) "abc" "10.0.0.2"
                eq_refl Hkey Hbound Hval) as [Hhit _].
    destruct (Hhit Hin) as (i & t & Hi & Hd & _ & Hfa & _).
    destruct i as [|[|[|i]]]; simpl in Hi; inversion Hi; subst t;
      try discriminate Hd. exact Hfa.
  - assert (Hout : forall t, t ∈ sample.three -> dest t <> "10.0.0.7").
    { intros t Ht. apply list_elem_of_In in Ht. simpl in Ht.
      destruct Ht as [<- | [<- | [<- | []]]]; discriminate. }
    assert (Hkey : "abc" <> "") by discriminate.
    assert (Hval : "10.0.0.7" <> "") by discriminate.
    assert (Hbound : kv (mkWorld sample.three {["abc" := "10.0.0.7"]}) !! "abc"
                     = Some "10.0.0.7") by reflexivity.
    destruct (bound_session_lookup quiet 0 0 0 sample.sticky
                (mkWorld sample.three {["abc" := "10.0.0.7"]}) "abc" "10.0.0.7"
                eq_refl Hkey Hbound Hval) as [_ Hstale].
    destruct (Hstale Hout) as (_ & _ & _ & Hrr & _). exact Hrr.
Defined.

(** *** Session establishment *)

Lemma setSession_nokey e p pick w :
  sessionFrom p = Ok "" -> setSession e p pick w = Ok (true, w).
Proof. intros H. unfold setSession. rewrite H. reflexivity. Qed.

Lemma setSession_conflict e p pick w s :
  sessionFrom p = Ok s -> s <> "" ->
  Get (kv w) s <> "" -> Get (kv w) s <> pick ->
  setSession e p pick w = Ok (false, w).
Proof.
  intros Hs Hne Hd Hp. unfold setSession. rewrite Hs, bind_Ok.
  apply nonempty_true in Hne, Hd. rewrite Hne, Hd.
  apply String.eqb_neq in Hp. rewrite Hp. reflexivity.
Qed.

(** An establishment either refuses and leaves the state alone, or
    succeeds; it panics only if the session key cannot be read. *)
Lemma setSession_cases e p pick w s :
  sessionFrom p = Ok s ->
  setSession e p pick w = Ok (false, w) \/
  exists w2, setSession e p pick w = Ok (true, w2).
Proof.
  intros Hs. unfold setSession. rewrite Hs, bind_Ok.
  destruct (nonempty s); [| eauto].
  destruct (nonempty (Get (kv w) s) && negb (Get (kv w) s =? pick)%string); eauto.
Qed.

(** After a lookup that found no tracker the session key is unset, so an
    establishment that sees the store of that moment succeeds. *)
Lemma getSession_None_unbound p w w0 s :
  getSession p w = Ok (None, w0) -> sessionFrom p = Ok s ->
  s = "" \/ kv w0 !! s = None.
Proof.
  unfold getSession. intros Hget Hs. rewrite Hs, bind_Ok in Hget.
  destruct (nonempty s) eqn:E; [| left; apply nonempty_false; exact E].
  right. rewrite Del_observed in Hget.
  destruct (if nonempty (Get (kv w) s) then _ else _) as [[i t]|];
    inversion Hget. apply lookup_delete_eq.
Qed.

Lemma setSession_after_lookup e p w w0 pick w1 :
  getSession p w = Ok (None, w0) -> kv w1 = kv w0 ->
  exists w2, setSession e p pick w1 = Ok (true, w2).
Proof.
  intros Hget Hkv. destruct (getSession_key _ _ _ _ Hget) as [s Hs].
  unfold setSession. rewrite Hs, bind_Ok.
  destruct (getSession_None_unbound p w w0 s Hget Hs) as [-> | Hnone]; [eauto |].
  destruct (nonempty s); [| eauto].
  unfold Get. rewrite Hkv, Hnone. simpl. eauto.
Qed.

Lemma release_claimed (t : podTracker) : release (claimed t) = t.
Proof. destruct t. reflexivity. Qed.

(** Calling the release of a reservation undoes it. *)
Lemma release_undoes_claim (ts : list podTracker) q t :
  ts !! q = Some t -> alter release q (<[q := claimed t]> ts) = ts.
Proof.
  intros Hq. apply list_eq. intros j.
  destruct (decide (q = j)) as [<- | Hne].
  - rewrite list_lookup_alter_eq, list_lookup_insert_eq
      by (eapply lookup_lt_Some; eassumption).
    simpl. rewrite release_claimed. symmetry. exact Hq.
  - rewrite list_lookup_alter_ne, list_lookup_insert_ne by exact Hne. reflexivity.
Qed.

Lemma reserved_ok e p w q t w2 :
  setSession e p (dest t)
    (before e (withTrackers w (<[q := claimed t]> (trackers w)))) = Ok (true, w2) ->
  reserved e p w q (claimed t) = Ok (true, w2).
Proof. intros H. unfold reserved. simpl. rewrite H. reflexivity. Qed.

Lemma reserved_refused e p w q t w1 :
  w1 = before e (withTrackers w (<[q := claimed t]> (trackers w))) ->
  setSession e p (dest t) w1 = Ok (false, w1) ->
  reserved e p w q (claimed t) = Ok (false, call (releaseOf q) w1).
Proof. intros -> H. unfold reserved. simpl. rewrite H. reflexivity. Qed.

(** *** The scans *)

Lemma Reserve_Some t : hasCapacity t = true -> Reserve t = Some (claimed t).
Proof. unfold Reserve. intros ->. reflexivity. Qed.

Lemma Reserve_None t : hasCapacity t = false -> Reserve t = None.
Proof. unfold Reserve. intros ->. reflexivity. Qed.

(** The scan of [firstAvailableLBPolicy] stops at the first tracker with
    capacity. *)
Lemma firstAvailable_loop_pick e p w q t : forall n i,
  (i <= q < i + n)%nat ->
  trackers w !! q = Some t -> hasCapacity t = true ->
  (forall j u, (i <= j < q)%nat -> trackers w !! j = Some u -> hasCapacity u = false) ->
  firstAvailable_loop e p w n i =
    ('(ok, w2) ← reserved e p w q (claimed t);
     if ok : bool then Ok (releaseOf q, Some q, w2) else Ok (noop, None, w2)).
Proof.
  induction n as [|n IH]; intros i Hrange Hq Hcap Hfull; [lia |].
  simpl. destruct (decide (i = q)) as [-> | Hne].
  - rewrite Hq, (Reserve_Some _ Hcap). reflexivity.
  - destruct (lookup_lt_is_Some_2 (trackers w) i) as [u Hu].
    { apply lookup_lt_Some in Hq. lia. }
    rewrite Hu, (Reserve_None u) by (apply (Hfull i); [lia | exact Hu]).
    apply IH; [lia | exact Hq | exact Hcap |].
    intros j v Hj. apply Hfull. lia.
Qed.

Lemma firstAvailable_loop_none e p w : forall n i,
  (i + n <= length (trackers w))%nat ->
  (forall j u, (i <= j)%nat -> trackers w !! j = Some u -> hasCapacity u = false) ->
  firstAvailable_loop e p w n i = Ok (noop, None, w).
Proof.
  induction n as [|n IH]; intros i Hlen Hfull; [reflexivity |].
  simpl. destruct (lookup_lt_is_Some_2 (trackers w) i) as [u Hu]; [lia |].
  rewrite Hu, (Reserve_None u) by (apply (Hfull i); [lia | exact Hu]).
  apply IH; [lia |]. intros j v Hj. apply Hfull. lia.
Qed.

(** The scan of the round-robin policy stops at the first tracker with
    capacity in cyclic order from the cursor. *)
Lemma roundRobin_loop_pick e p w idx l k t : forall n i,
  l = length (trackers w) ->
  (i <= k < i + n)%nat ->
  trackers w !! ((idx + k) mod l)%nat = Some t -> hasCapacity t = true ->
  (forall j u, (i <= j < k)%nat ->
     trackers w !! ((idx + j) mod l)%nat = Some u -> hasCapacity u = false) ->
  roundRobin_loop e p w idx l n i =
    (let q := ((idx + k) mod l)%nat in
     '(ok, w2) ← reserved e p w q (claimed t);
     if ok : bool then Ok (releaseOf q, Some q, w2, (q + 1)%nat)
     else Ok (noop, None, w2, idx)).
Proof.
  induction n as [|n IH]; intros i Hl Hrange Hq Hcap Hfull; [lia |].
  simpl. destruct (decide (i = k)) as [-> | Hne].
  - rewrite Hq, (Reserve_Some _ Hcap). reflexivity.
  - assert (Hpos : (0 < l)%nat).
    { apply lookup_lt_Some in Hq. lia. }
    destruct (lookup_lt_is_Some_2 (trackers w) ((idx + i) mod l)%nat) as [u Hu].
    { rewrite <- Hl. apply Nat.mod_upper_bound. lia. }
    rewrite Hu, (Reserve_None u) by (apply (Hfull i); [lia | exact Hu]).
    apply IH; [exact Hl | lia | exact Hq | exact Hcap |].
    intros j v Hj. apply Hfull. lia.
Qed.

Lemma roundRobin_loop_none e p w idx l : forall n i,
  l = length (trackers w) -> (n = 0 \/ 0 < l)%nat ->
  (forall u, u ∈ trackers w -> hasCapacity u = false) ->
  roundRobin_loop e p w idx l n i = Ok (noop, None, w, idx).
Proof.
  induction n as [|n IH]; intros i Hl Hpos Hfull; [reflexivity |].
  simpl. destruct Hpos as [Hpos | Hpos]; [discriminate |].
  destruct (lookup_lt_is_Some_2 (trackers w) ((idx + i) mod l)%nat) as [u Hu].
  { rewrite <- Hl. apply Nat.mod_upper_bound. lia. }
  rewrite Hu, (Reserve_None u)
    by (apply Hfull; eapply list_elem_of_lookup_2; exact Hu).
  apply IH; [exact Hl | right; exact Hpos | exact Hfull].
Qed.

Lemma randomChoice2_select_candidate e raw1 raw2 p w q t :
  candidate2 raw1 raw2 (trackers w) q t ->
  randomChoice2_select e raw1 raw2 p w = choose e p w q t.
Proof.
  unfold randomChoice2_select, candidate2.
  intros [(Hl & -> & H0) | (Hl & t1 & t2 & H1 & H2 & Hpick)].
  - rewrite Hl. simpl. unfold at_. rewrite H0. reflexivity.
  - apply Nat.eqb_neq in Hl. rewrite Hl.
    destruct (contestants raw1 raw2 (length (trackers w))) as [r1 r2].
    simpl in *. unfold at_. rewrite H1, H2. simpl.
    destruct (getWeight t2 <? getWeight t1)%Z; inversion Hpick; reflexivity.
Qed.

(** C5. A session key is present, the lookup found no bound tracker, and
    by the time the binding is to be established the store holds a binding
    for the key that differs from the candidate's destination (written by
    another request, which touched the store only).  Then each
    capacity-aware policy returns no target with the no-op release, and
    the trackers are as they were before the call: first-available and
    round-robin have called the release of the reservation they took,
    power-of-two-choices has not touched the weight. *)
Theorem conflicting_binding_aborts e idx raw1 raw2 p w w0 s :
  sessionFrom p = Ok s -> s <> "" ->
  getSession p w = Ok (None, w0) ->
  (forall q t w1,
     trackers w0 !! q = Some t -> hasCapacity t = true ->
     (forall j u, (j < q)%nat -> trackers w0 !! j = Some u -> hasCapacity u = false) ->
     w1 = before e (withTrackers w0 (<[q := claimed t]> (trackers w0))) ->
     trackers w1 = <[q := claimed t]> (trackers w0) ->
     bound_elsewhere s (dest t) w1 ->
     firstAvailableLBPolicy e p w = Ok (noop, None, mkWorld (trackers w) (kv w1))) /\
  (forall k t w1,
     let l := length (trackers w0) in
     let q := ((wrapped idx l + k) mod l)%nat in
     (k < l)%nat ->
     trackers w0 !! q = Some t -> hasCapacity t = true ->
     (forall j u, (j < k)%nat ->
        trackers w0 !! ((wrapped idx l + j) mod l)%nat = Some u -> hasCapacity u = false) ->
     w1 = before e (withTrackers w0 (<[q := claimed t]> (trackers w0))) ->
     trackers w1 = <[q := claimed t]> (trackers w0) ->
     bound_elsewhere s (dest t) w1 ->
     roundRobinPolicy e idx p w
       = Ok (noop, None, mkWorld (trackers w) (kv w1), wrapped idx l)) /\
  (forall q t w1,
     candidate2 raw1 raw2 (trackers w0) q t ->
     w1 = before e w0 ->
     trackers w1 = trackers w0 ->
     bound_elsewhere s (dest t) w1 ->
     randomChoice2Policy e raw1 raw2 p w = Ok (noop, None, mkWorld (trackers w) (kv w1))).
Proof.
  intros Hs Hne Hget.
  pose proof (getSession_trackers _ _ _ _ Hget) as Hts.
  split; [| split].
  - intros q t w1 Hq Hcap Hfull Hw1 Hframe [Hb1 Hb2].
    unfold firstAvailableLBPolicy. rewrite Hget, bind_Ok. unfold firstAvailable_select.
    rewrite (firstAvailable_loop_pick e p w0 q t).
    + rewrite (reserved_refused e p w0 q t w1 Hw1)
        by (apply (setSession_conflict e p _ w1 s); assumption).
      simpl. unfold withTrackers. rewrite Hframe, (release_undoes_claim _ _ _ Hq), Hts.
      reflexivity.
    + apply lookup_lt_Some in Hq. lia.
    + exact Hq.
    + exact Hcap.
    + intros j u Hj. apply Hfull. lia.
  - intros k t w1 l q Hk Hq Hcap Hfull Hw1 Hframe [Hb1 Hb2].
    unfold roundRobinPolicy. rewrite Hget, bind_Ok. unfold roundRobin_select.
    fold l. rewrite (roundRobin_loop_pick e p w0 (wrapped idx l) l k t).
    + fold q. cbv zeta.
      rewrite (reserved_refused e p w0 q t w1 Hw1)
        by (apply (setSession_conflict e p _ w1 s); assumption).
      simpl. unfold withTrackers. rewrite Hframe, (release_undoes_claim _ _ _ Hq), Hts.
      reflexivity.
    + reflexivity.
    + lia.
    + exact Hq.
    + exact Hcap.
    + intros j u Hj. apply Hfull. lia.
  - intros q t w1 Hcand Hw1 Hframe [Hb1 Hb2].
    unfold randomChoice2Policy. rewrite Hget, bind_Ok.
    rewrite (randomChoice2_select_candidate e raw1 raw2 p w0 q t Hcand).
    unfold choose. rewrite <- Hw1.
    rewrite (setSession_conflict e p _ w1 s) by assumption.
    simpl. rewrite <- Hts, <- Hframe. destruct w1. reflexivity.
Qed.

Lemma conflicting_binding_aborts_witness :
  firstAvailableLBPolicy sample.rival sample.sticky (mkWorld sample.three ∅)
    = Ok (noop, None, mkWorld sample.three {["abc" := "10.0.0.9"]}) /\
  roundRobinPolicy sample.rival 1 sample.sticky (mkWorld sample.three ∅)
    = Ok (noop, None, mkWorld sample.three {["abc" := "10.0.0.9"]}, 1%nat) /\
  randomChoice2Policy sample.rival 0 0 sample.sticky (mkWorld sample.three ∅)
    = Ok (noop, None, mkWorld sample.three {["abc" := "10.0.0.9"]}).
Proof.
  assert (Hkey : "abc" <> "") by discriminate.
  assert (Hget : getSession sample.sticky (mkWorld sample.three ∅)
                 = Ok (None, mkWorld sample.three ∅)) by reflexivity.
  destruct (conflicting_binding_aborts sample.rival 1 0 0 sample.sticky
              (mkWorld sample.three ∅) (mkWorld sample.three ∅) "abc"
              eq_refl Hkey Hget) as (Hfa & Hrr & Hp2c).
  split; [| split].
  - etransitivity; [| reflexivity].
    apply (Hfa 0%nat (sample.tracker "10.0.0.1" 0 1)
             (sample.rival.(before)
                (withTrackers (mkWorld sample.three ∅)
                   (<[0%nat := claimed (sample.tracker "10.0.0.1" 0 1)]> sample.three)))).
    + reflexivity.
    + reflexivity.
    + intros j u Hj. lia.
    + reflexivity.
    + reflexivity.
    + split; discriminate.
  - etransitivity; [| reflexivity].
    apply (Hrr 0%nat (sample.tracker "10.0.0.2" 0 1)
             (sample.rival.(before)
                (withTrackers (mkWorld sample.three ∅)
                   (<[1%nat := claimed (sample.tracker "10.0.0.2" 0 1)]> sample.three)))).
    + simpl. lia.
    + reflexivity.
    + reflexivity.
    + intros j u Hj. lia.
    + reflexivity.
    + reflexivity.
    + split; discriminate.
  - etransitivity; [| reflexivity].
    apply (Hp2c 0%nat (sample.tracker "10.0.0.1" 0 1)
             (sample.rival.(before) (mkWorld sample.three ∅))).
    + right. split; [discriminate |].
      exists (sample.tracker "10.0.0.1" 0 1), (sample.tracker "10.0.0.2" 0 1).
      repeat split.
    + reflexivity.
    + reflexivity.
    + split; discriminate.
Defined.

Lemma withKv_same w : withKv w (kv w) = w.
Proof. destruct w. reflexivity. Qed.

Lemma getSession_unbound p w s :
  sessionFrom p = Ok s -> s = "" \/ kv w !! s = None ->
  getSession p w = Ok (None, w).
Proof.
  intros Hs [-> | Hnone].
  - apply getSession_nokey. exact Hs.
  - destruct (decide (s = "")) as [-> | Hne]; [apply getSession_nokey; exact Hs |].
    rewrite (getSession_miss p w s Hs Hne).
    + rewrite delete_id by exact Hnone. rewrite withKv_same. reflexivity.
    + left. unfold Get. rewrite Hnone. reflexivity.
Qed.

(** C10. With an empty target set and a request whose session is not
    bound (no session key, or no binding for it), [firstAvailableLBPolicy]
    and the round-robin policy return no target with the no-op release,
    without a panic and without touching the state; the round-robin
    cursor is 0 afterwards, whatever it was. *)
Theorem empty_target_set e idx p w s :
  trackers w = [] ->
  sessionFrom p = Ok s -> s = "" \/ kv w !! s = None ->
  firstAvailableLBPolicy e p w = Ok (noop, None, w) /\
  roundRobinPolicy e idx p w = Ok (noop, None, w, 0%nat).
Proof.
  intros Hts Hs Hfree.
  pose proof (getSession_unbound p w s Hs Hfree) as Hget.
  split.
  - unfold firstAvailableLBPolicy. rewrite Hget, bind_Ok.
    unfold firstAvailable_select. rewrite Hts. reflexivity.
  - unfold roundRobinPolicy. rewrite Hget, bind_Ok.
    unfold roundRobin_select. rewrite Hts. reflexivity.
Qed.

Lemma empty_target_set_witness :
  firstAvailableLBPolicy quiet sample.sticky (mkWorld [] ∅)
    = Ok (noop, None, mkWorld [] ∅) /\
  roundRobinPolicy quiet 5 sample.sticky (mkWorld [] ∅)
    = Ok (noop, None, mkWorld [] ∅, 0%nat).
Proof.
  apply (empty_target_set quiet 5 sample.sticky (mkWorld [] ∅) "abc").
  - reflexivity.
  - reflexivity.
  - right. reflexivity.
Defined.

(** C9, as the code has it.  The target set has one tracker and the
    lookup found no bound tracker.  First-available and round-robin select
    the tracker when it has capacity (and the binding, if any, can be
    established) and return no target when it has none.  Power-of-two-
    choices makes no capacity check: it selects the sole tracker whether
    or not it has capacity, and raises its weight.  The binding can be
    established whenever nobody has written the store since the lookup. *)
Theorem sole_backend e idx raw1 raw2 p w w0 t :
  getSession p w = Ok (None, w0) -> trackers w0 = [t] ->
  (hasCapacity t = true ->
   forall w2,
     setSession e p (dest t) (before e (withTrackers w0 [claimed t])) = Ok (true, w2) ->
     firstAvailableLBPolicy e p w = Ok (releaseOf 0, Some 0%nat, w2) /\
     roundRobinPolicy e idx p w = Ok (releaseOf 0, Some 0%nat, w2, 1%nat)) /\
  (hasCapacity t = false ->
   firstAvailableLBPolicy e p w = Ok (noop, None, w0) /\
   roundRobinPolicy e idx p w = Ok (noop, None, w0, 0%nat)) /\
  (forall w2,
     setSession e p (dest t) (before e w0) = Ok (true, w2) ->
     randomChoice2Policy e raw1 raw2 p w
       = Ok (decreaseWeightOf 0, Some 0%nat,
             withTrackers w2 (alter increaseWeight 0%nat (trackers w2)))) /\
  (forall pick w1, kv w1 = kv w0 -> exists w2, setSession e p pick w1 = Ok (true, w2)).
Proof.
  intros Hget Hts.
  assert (Hw : wrapped idx 1 = 0%nat).
  { unfold wrapped. destruct idx; reflexivity. }
  split; [| split; [| split]].
  - intros Hcap w2 Hset. split.
    + unfold firstAvailableLBPolicy. rewrite Hget, bind_Ok.
      unfold firstAvailable_select. rewrite Hts. simpl. rewrite Hts. simpl.
      rewrite (Reserve_Some _ Hcap). unfold reserved. rewrite Hts. simpl.
      rewrite Hset. reflexivity.
    + unfold roundRobinPolicy. rewrite Hget, bind_Ok.
      unfold roundRobin_select. rewrite Hts. simpl length. rewrite Hw. simpl.
      rewrite Hts. simpl. rewrite (Reserve_Some _ Hcap). unfold reserved. rewrite Hts. simpl.
      rewrite Hset. reflexivity.
  - intros Hcap. split.
    + unfold firstAvailableLBPolicy. rewrite Hget, bind_Ok.
      unfold firstAvailable_select. rewrite Hts. simpl. rewrite Hts. simpl.
      rewrite (Reserve_None _ Hcap). reflexivity.
    + unfold roundRobinPolicy. rewrite Hget, bind_Ok.
      unfold roundRobin_select. rewrite Hts. simpl length. rewrite Hw. simpl.
      rewrite Hts. simpl. rewrite (Reserve_None _ Hcap). reflexivity.
  - intros w2 Hset.
    unfold randomChoice2Policy. rewrite Hget, bind_Ok.
    unfold randomChoice2_select. rewrite Hts. simpl.
    unfold choose. rewrite Hset. reflexivity.
  - intros pick w1 Hkv. exact (setSession_after_lookup e p w w0 pick w1 Hget Hkv).
Qed.

Lemma sole_backend_witness :
  firstAvailableLBPolicy quiet sample.sticky (mkWorld [sample.tracker "10.0.0.1" 0 1] ∅)
    = Ok (releaseOf 0, Some 0%nat,
          mkWorld [sample.tracker "10.0.0.1" 1 1] {["abc" := "10.0.0.1"]}) /\
  roundRobinPolicy quiet 3 sample.sticky (mkWorld [sample.tracker "10.0.0.1" 0 1] ∅)
    = Ok (releaseOf 0, Some 0%nat,
          mkWorld [sample.tracker "10.0.0.1" 1 1] {["abc" := "10.0.0.1"]}, 1%nat).
Proof.
  apply (sole_backend quiet 3 0 0 sample.sticky
           (mkWorld [sample.tracker "10.0.0.1" 0 1] ∅)
           (mkWorld [sample.tracker "10.0.0.1" 0 1] ∅)
           (sample.tracker "10.0.0.1" 0 1)); reflexivity.
Defined.

(** C9 fails for power-of-two-choices: the sole backend is at its cap of
    one outstanding request, and the policy selects it all the same. *)
Lemma sole_backend_at_cap_selected :
  hasCapacity (sample.tracker "10.0.0.1" 1 1) = false /\
  getSession sample.plain (mkWorld [sample.tracker "10.0.0.1" 1 1] ∅)
    = Ok (None, mkWorld [sample.tracker "10.0.0.1" 1 1] ∅) /\
  randomChoice2Policy quiet 0 0 sample.plain (mkWorld [sample.tracker "10.0.0.1" 1 1] ∅)
    = Ok (decreaseWeightOf 0, Some 0%nat, mkWorld [mkTracker "10.0.0.1" 1 1 1] ∅).
Proof. repeat split. Qed.

(** *** The round-robin cursor *)

Lemma wrapped_lt idx l : (0 < l)%nat -> (wrapped idx l < l)%nat.
Proof.
  intros Hl. unfold wrapped. destruct (l <=? idx)%nat eqn:E; [exact Hl |].
  apply Nat.leb_gt in E. exact E.
Qed.

Lemma mod_wrap x l : (l <= x < 2 * l)%nat -> (x mod l = x - l)%nat.
Proof.
  intros H. symmetry. apply (Nat.mod_unique x l 1); lia.
Qed.

Lemma mod_shift_ne c m l : (c < l)%nat -> (0 < m < l)%nat -> ((c + m) mod l)%nat <> c.
Proof.
  intros Hc Hm. destruct (le_lt_dec l (c + m)) as [Hge | Hlt].
  - rewrite mod_wrap by lia. lia.
  - rewrite Nat.mod_small by lia. lia.
Qed.

Lemma mod_shift_inj c i j l :
  (c < l)%nat -> (i < l)%nat -> (j < l)%nat ->
  ((c + i) mod l = (c + j) mod l)%nat -> i = j.
Proof.
  intros Hc Hi Hj.
  destruct (le_lt_dec l (c + i)) as [Hi' | Hi'];
    [rewrite (mod_wrap (c + i)) by lia | rewrite (Nat.mod_small (c + i)) by lia];
    (destruct (le_lt_dec l (c + j)) as [Hj' | Hj'];
     [rewrite (mod_wrap (c + j)) by lia | rewrite (Nat.mod_small (c + j)) by lia]);
    lia.
Qed.

(** The cursor left by a pick at [c] reads, at the next call, as the
    position after [c] in cyclic order. *)
Lemma wrapped_next c j l :
  (c < l)%nat -> ((wrapped (c + 1) l + j) mod l = (c + S j) mod l)%nat.
Proof.
  intros Hc. unfold wrapped. destruct (l <=? c + 1)%nat eqn:E.
  - apply Nat.leb_le in E. replace (c + S j)%nat with (j + 1 * l)%nat by lia.
    rewrite Nat.Div0.mod_add. reflexivity.
  - f_equal. lia.
Qed.

(** Cyclic order from [c] lists every position exactly once. *)
Lemma cyclic_order_Permutation c n :
  (c < n)%nat ->
  (fun j => Some ((c + j) mod n)%nat) <$> seq 0 n ≡ₚ Some <$> seq 0 n.
Proof.
  intros Hc.
  change (fun j => Some ((c + j) mod n)%nat)
    with (Some ∘ (fun j => ((c + j) mod n)%nat)).
  rewrite list_fmap_compose. apply fmap_Permutation.
  apply submseteq_length_Permutation.
  - apply NoDup_submseteq.
    + apply NoDup_fmap_2_strong; [| apply NoDup_seq].
      intros i j Hi Hj. apply elem_of_seq in Hi, Hj.
      apply mod_shift_inj; lia.
    + intros x Hx. apply list_elem_of_fmap in Hx as (j & -> & _).
      apply elem_of_seq. split; [lia |]. simpl.
      apply Nat.mod_upper_bound. lia.
  - rewrite length_fmap. reflexivity.
Qed.

Lemma reserved_no_panic e p w q t s :
  sessionFrom p = Ok s -> reserved e p w q t <> Panic.
Proof.
  intros Hs. unfold reserved.
  destruct (setSession_cases e p (dest t)
              (before e (withTrackers w (<[q := t]> (trackers w)))) s Hs)
    as [H | [w2 H]]; rewrite H; discriminate.
Qed.

Lemma roundRobin_loop_no_panic e p w idx l s : forall n i,
  sessionFrom p = Ok s -> l = length (trackers w) -> (n = 0 \/ 0 < l)%nat ->
  roundRobin_loop e p w idx l n i <> Panic.
Proof.
  induction n as [|n IH]; intros i Hs Hl Hpos; [discriminate |].
  simpl. destruct Hpos as [Hpos | Hpos]; [discriminate |].
  destruct (lookup_lt_is_Some_2 (trackers w) ((idx + i) mod l)%nat) as [u Hu].
  { rewrite <- Hl. apply Nat.mod_upper_bound. lia. }
  rewrite Hu. destruct (Reserve u) as [u'|].
  - pose proof (reserved_no_panic e p w ((idx + i) mod l)%nat u' s Hs) as Hr.
    destruct (reserved e p w ((idx + i) mod l)%nat u') as [[[] w2]|];
      [discriminate | discriminate | contradiction].
  - apply IH; [exact Hs | exact Hl | right; exact Hpos].
Qed.

(** One call without a session key and without interference, when the
    tracker under the cursor has capacity. *)
Lemma roundRobin_call_at_cursor p w idx t :
  sessionFrom p = Ok "" ->
  trackers w !! wrapped idx (length (trackers w)) = Some t ->
  hasCapacity t = true ->
  let c := wrapped idx (length (trackers w)) in
  roundRobinPolicy quiet idx p w
    = Ok (releaseOf c, Some c,
          withTrackers w (<[c := claimed t]> (trackers w)), (c + 1)%nat).
Proof.
  intros Hs Ht Hcap c.
  assert (Hc : (c < length (trackers w))%nat) by (eapply lookup_lt_Some; exact Ht).
  assert (Hq : ((c + 0) mod length (trackers w))%nat = c).
  { rewrite Nat.add_0_r. apply Nat.mod_small. exact Hc. }
  unfold roundRobinPolicy. rewrite (getSession_nokey p w Hs), bind_Ok.
  unfold roundRobin_select. fold c.
  rewrite (roundRobin_loop_pick quiet p w c (length (trackers w)) 0 t).
  - cbv zeta. rewrite Hq.
    rewrite (reserved_ok quiet p w c t
               (withTrackers w (<[c := claimed t]> (trackers w)))).
    + reflexivity.
    + apply setSession_nokey. exact Hs.
  - reflexivity.
  - lia.
  - rewrite Hq. exact Ht.
  - exact Hcap.
  - intros j u Hj. lia.
Qed.

(** Consecutive calls without a session key walk the set in cyclic
    order, as long as the trackers they reach have capacity. *)
Lemma roundRobin_calls_cycle p :
  sessionFrom p = Ok "" ->
  forall k idx w,
    (k <= length (trackers w))%nat ->
    (forall j, (j < k)%nat ->
       exists t, trackers w !! ((wrapped idx (length (trackers w)) + j)
                                  mod length (trackers w))%nat = Some t
                 /\ hasCapacity t = true) ->
    exists w' idx',
      roundRobin_calls quiet k idx p w
        = Ok ((fun j => Some ((wrapped idx (length (trackers w)) + j)
                                mod length (trackers w))%nat) <$> seq 0 k,
              w', idx').
Proof.
  intros Hs. induction k as [|k IH]; intros idx w Hk Hcap.
  - exists w, idx. reflexivity.
  - set (l := length (trackers w)) in *.
    set (c := wrapped idx l) in *.
    assert (Hc : (c < l)%nat) by (apply wrapped_lt; lia).
    destruct (Hcap 0%nat) as (t & Ht & Htcap); [lia |].
    rewrite Nat.add_0_r, Nat.mod_small in Ht by exact Hc.
    pose proof (roundRobin_call_at_cursor p w idx t Hs Ht Htcap) as Hcall.
    cbv zeta in Hcall. fold l in Hcall. fold c in Hcall.
    set (w1 := withTrackers w (<[c := claimed t]> (trackers w))) in *.
    assert (Hl1 : length (trackers w1) = l) by apply length_insert.
    destruct (IH (c + 1)%nat w1) as (w' & idx' & Hrest).
    + rewrite Hl1. lia.
    + intros j Hj. rewrite Hl1, wrapped_next by exact Hc.
      destruct (Hcap (S j)) as (u & Hu & Hucap); [lia |].
      fold c in Hu. exists u. split; [| exact Hucap].
      unfold w1. simpl. rewrite list_lookup_insert_ne; [exact Hu |].
      intros Heq. symmetry in Heq. revert Heq. apply mod_shift_ne; lia.
    + exists w', idx'. simpl roundRobin_calls. rewrite Hcall, bind_Ok.
      rewrite Hrest, bind_Ok. rewrite Hl1.
      f_equal. f_equal. f_equal.
      change (seq 0 (S k)) with (0%nat :: seq 1 k).
      rewrite fmap_cons, <- fmap_S_seq, <- list_fmap_compose.
      f_equal.
      * rewrite Nat.add_0_r, Nat.mod_small by exact Hc. reflexivity.
      * apply list_fmap_ext. intros i j _. simpl.
        rewrite wrapped_next by exact Hc. reflexivity.
Qed.

(** C6. A call of the round-robin policy whose lookup found no bound
    tracker: the cursor is first wrapped to 0 when it is at or past the
    length of the set, and the call does not panic; the scan goes through
    the set in cyclic order from the cursor and returns the first tracker
    whose [Reserve] succeeds, with the cursor set to one past it (given
    that the binding, if any, can be established); when no tracker has
    capacity it returns no target and the cursor stays at its wrapped
    position.  Over a set whose trackers all have capacity, as many
    calls as there are trackers (no session key, no interference) pick
    the positions in cyclic order from the cursor, each exactly once.
    The binding can be established whenever nobody has written the store
    since the lookup. *)
Theorem round_robin_scan e idx p w w0 :
  getSession p w = Ok (None, w0) ->
  let l := length (trackers w0) in
  let c := wrapped idx l in
  ((l <= idx)%nat -> c = 0%nat) /\ ((idx < l)%nat -> c = idx) /\
  roundRobinPolicy e idx p w <> Panic /\
  (forall k t w2,
     let q := ((c + k) mod l)%nat in
     (k < l)%nat ->
     trackers w0 !! q = Some t -> hasCapacity t = true ->
     (forall j u, (j < k)%nat ->
        trackers w0 !! ((c + j) mod l)%nat = Some u -> hasCapacity u = false) ->
     setSession e p (dest t)
       (before e (withTrackers w0 (<[q := claimed t]> (trackers w0)))) = Ok (true, w2) ->
     roundRobinPolicy e idx p w = Ok (releaseOf q, Some q, w2, (q + 1)%nat)) /\
  ((forall u, u ∈ trackers w0 -> hasCapacity u = false) ->
   roundRobinPolicy e idx p w = Ok (noop, None, w0, c)) /\
  (sessionFrom p = Ok "" ->
   (forall u, u ∈ trackers w -> hasCapacity u = true) ->
   exists w' idx',
     roundRobin_calls quiet l idx p w
       = Ok ((fun j => Some ((c + j) mod l)%nat) <$> seq 0 l, w', idx') /\
     (fun j => Some ((c + j) mod l)%nat) <$> seq 0 l ≡ₚ Some <$> seq 0 l) /\
  (forall pick w1, kv w1 = kv w0 -> exists w2, setSession e p pick w1 = Ok (true, w2)).
Proof.
  intros Hget l c.
  pose proof (getSession_trackers _ _ _ _ Hget) as Hts.
  destruct (getSession_key _ _ _ _ Hget) as [s Hs].
  assert (Hpol : roundRobinPolicy e idx p w = roundRobin_loop e p w0 c l l 0).
  { unfold roundRobinPolicy. rewrite Hget. reflexivity. }
  repeat split.
  - intros H. unfold c, wrapped. apply Nat.leb_le in H. rewrite H. reflexivity.
  - intros H. unfold c, wrapped. apply Nat.leb_gt in H. rewrite H. reflexivity.
  - rewrite Hpol. apply (roundRobin_loop_no_panic e p w0 c l s); [exact Hs | reflexivity |].
    destruct l; [left; reflexivity | right; lia].
  - intros k t w2 q Hk Hq Hcap Hfull Hset. rewrite Hpol.
    rewrite (roundRobin_loop_pick e p w0 c l k t);
      [| reflexivity | lia | exact Hq | exact Hcap | intros j u Hj; apply Hfull; lia].
    cbv zeta. fold q. rewrite (reserved_ok e p w0 q t w2 Hset). reflexivity.
  - intros Hfull. rewrite Hpol.
    apply roundRobin_loop_none; [reflexivity | | exact Hfull].
    destruct l; [left; reflexivity | right; lia].
  - intros Hnokey Hcap.
    assert (Hw : w0 = w).
    { rewrite (getSession_nokey p w Hnokey) in Hget. congruence. }
    subst w0.
    destruct (roundRobin_calls_cycle p Hnokey l idx w) as (w' & idx' & Hcalls).
    + reflexivity.
    + intros j Hj.
      destruct (lookup_lt_is_Some_2 (trackers w) ((wrapped idx l + j) mod l)%nat)
        as [t Ht]; [apply Nat.mod_upper_bound; lia |].
      exists t. split; [exact Ht |].
      apply Hcap. eapply list_elem_of_lookup_2. exact Ht.
    + exists w', idx'. split; [exact Hcalls |].
      destruct (decide (l = 0%nat)) as [Hz | Hnz].
      * rewrite Hz. reflexivity.
      * apply cyclic_order_Permutation. apply wrapped_lt. lia.
  - intros pick w1 Hkv. exact (setSession_after_lookup e p w w0 pick w1 Hget Hkv).
Qed.

Lemma round_robin_scan_witness :
  roundRobinPolicy quiet 7 sample.plain (mkWorld sample.three ∅)
    = Ok (releaseOf 0, Some 0%nat,
          mkWorld (<[0%nat := claimed (sample.tracker "10.0.0.1" 0 1)]> sample.three) ∅,
          1%nat) /\
  exists w' idx',
    roundRobin_calls quiet 3 1 sample.plain (mkWorld sample.three ∅)
      = Ok ([Some 1%nat; Some 2%nat; Some 0%nat], w', idx').
Proof.
  assert (Hget : getSession sample.plain (mkWorld sample.three ∅)
                 = Ok (None, mkWorld sample.three ∅)) by reflexivity.
  split.
  - destruct (round_robin_scan quiet 7 sample.plain _ _ Hget)
      as (_ & _ & _ & Hpick & _).
    apply (Hpick 0%nat (sample.tracker "10.0.0.1" 0 1)).
    + simpl. lia.
    + reflexivity.
    + reflexivity.
    + intros j u Hj. lia.
    + reflexivity.
  - destruct (round_robin_scan quiet 1 sample.plain _ _ Hget)
      as (_ & _ & _ & _ & _ & Hcalls & _).
    destruct Hcalls as (w' & idx' & Hcalls & _).
    + reflexivity.
    + intros u Hu. apply list_elem_of_In in Hu. simpl in Hu.
      destruct Hu as [<- | [<- | [<- | []]]]; reflexivity.
    + exists w', idx'. exact Hcalls.
Defined.

(** The spec's scenario: three backends, cursor at the second one. *)
Example round_robin_from_second :
  (roundRobin_calls quiet 4 1 sample.plain (mkWorld sample.three ∅)
     ≫= fun r => Ok r.1.1)
  = Ok [Some 1%nat; Some 2%nat; Some 0%nat; None].
Proof. reflexivity. Qed.

(** *** Power of two choices *)

Lemma contestants_spec raw1 raw2 l :
  (2 <= l)%nat ->
  let r1 := (contestants raw1 raw2 l).1 in
  let r2 := (contestants raw1 raw2 l).2 in
  r1 <> r2 /\ (r1 < l)%nat /\ (r2 < l)%nat.
Proof.
  intros Hl. unfold contestants, Intn. destruct (2 <? l)%nat eqn:E; simpl.
  - apply Nat.ltb_lt in E.
    pose proof (Nat.mod_upper_bound raw1 l) as H1.
    pose proof (Nat.mod_upper_bound raw2 (l - 1)) as H2.
    destruct (raw1 mod l <=? raw2 mod (l - 1))%nat eqn:E2;
      [apply Nat.leb_le in E2 | apply Nat.leb_gt in E2]; lia.
  - lia.
Qed.

(** C7. A call of the power-of-two-choices policy on two or more targets
    (the lookup found no bound tracker).  The two contestants are in
    range and distinct; for more than two targets the first is a draw
    below the length and the second a draw below the length minus one,
    moved up by one when it is not below the first; for exactly two
    targets they are positions 0 and 1, whatever the draws.  The policy
    picks the second contestant when its weight is strictly lower and the
    first one otherwise, so also on a tie (given that the binding, if
    any, can be established, as it can whenever nobody has written the
    store since the lookup); the pick's weight is raised and the release
    lowers it again. *)
Theorem two_choices e raw1 raw2 p w w0 :
  getSession p w = Ok (None, w0) ->
  let l := length (trackers w0) in
  (2 <= l)%nat ->
  let r1 := (contestants raw1 raw2 l).1 in
  let r2 := (contestants raw1 raw2 l).2 in
  r1 <> r2 /\ (r1 < l)%nat /\ (r2 < l)%nat /\
  ((2 < l)%nat ->
   r1 = (raw1 mod l)%nat /\
   r2 = (if (r1 <=? raw2 mod (l - 1))%nat
         then S (raw2 mod (l - 1)) else raw2 mod (l - 1))%nat) /\
  (l = 2%nat -> r1 = 0%nat /\ r2 = 1%nat) /\
  exists t1 t2,
    trackers w0 !! r1 = Some t1 /\ trackers w0 !! r2 = Some t2 /\
    ((getWeight t1 <= getWeight t2)%Z ->
     forall w2,
       setSession e p (dest t1) (before e w0) = Ok (true, w2) ->
       randomChoice2Policy e raw1 raw2 p w
         = Ok (decreaseWeightOf r1, Some r1,
               withTrackers w2 (alter increaseWeight r1 (trackers w2)))) /\
    ((getWeight t2 < getWeight t1)%Z ->
     forall w2,
       setSession e p (dest t2) (before e w0) = Ok (true, w2) ->
       randomChoice2Policy e raw1 raw2 p w
         = Ok (decreaseWeightOf r2, Some r2,
               withTrackers w2 (alter increaseWeight r2 (trackers w2)))) /\
    (forall pick w1, kv w1 = kv w0 -> exists w2, setSession e p pick w1 = Ok (true, w2)).
Proof.
  intros Hget l Hl r1 r2.
  destruct (contestants_spec raw1 raw2 l Hl) as (Hne & H1 & H2).
  fold r1 r2 in Hne, H1, H2.
  split; [exact Hne |]. split; [exact H1 |]. split; [exact H2 |].
  split; [| split].
  - intros Hgt. unfold r1, r2, contestants, Intn.
    apply Nat.ltb_lt in Hgt. rewrite Hgt. simpl. split; reflexivity.
  - intros Heq. unfold r1, r2, contestants. rewrite Heq. simpl. split; reflexivity.
  - destruct (lookup_lt_is_Some_2 (trackers w0) r1 H1) as [t1 Ht1].
    destruct (lookup_lt_is_Some_2 (trackers w0) r2 H2) as [t2 Ht2].
    exists t1, t2. split; [exact Ht1 |]. split; [exact Ht2 |].
    assert (Hsel : randomChoice2Policy e raw1 raw2 p w
                   = if (getWeight t2 <? getWeight t1)%Z
                     then choose e p w0 r2 t2 else choose e p w0 r1 t1).
    { unfold randomChoice2Policy. rewrite Hget, bind_Ok.
      unfold randomChoice2_select. fold l.
      replace (l =? 1)%nat with false by (symmetry; apply Nat.eqb_neq; lia).
      unfold r1, r2 in Ht1, Ht2.
      destruct (contestants raw1 raw2 l) as [a b]. simpl in Ht1, Ht2.
      unfold at_. rewrite Ht1, Ht2. reflexivity. }
    split; [| split].
    + intros Hle w2 Hset. rewrite Hsel.
      replace (getWeight t2 <? getWeight t1)%Z with false
        by (symmetry; apply Z.ltb_ge; exact Hle).
      unfold choose. rewrite Hset. reflexivity.
    + intros Hlt w2 Hset. rewrite Hsel.
      replace (getWeight t2 <? getWeight t1)%Z with true
        by (symmetry; apply Z.ltb_lt; exact Hlt).
      unfold choose. rewrite Hset. reflexivity.
    + intros pick w1 Hkv. exact (setSession_after_lookup e p w w0 pick w1 Hget Hkv).
Qed.

Lemma two_choices_witness :
  randomChoice2Policy quiet 1 1 sample.plain (mkWorld sample.weighted ∅)
    = Ok (decreaseWeightOf 1, Some 1%nat,
          mkWorld (alter increaseWeight 1%nat sample.weighted) ∅) /\
  randomChoice2Policy quiet 0 0 sample.plain (mkWorld sample.weighted ∅)
    = Ok (decreaseWeightOf 1, Some 1%nat,
          mkWorld (alter increaseWeight 1%nat sample.weighted) ∅).
Proof.
  assert (Hget : getSession sample.plain (mkWorld sample.weighted ∅)
                 = Ok (None, mkWorld sample.weighted ∅)) by reflexivity.
  assert (Hlen : (2 <= length sample.weighted)%nat) by (simpl; lia).
  split.
  - destruct (two_choices quiet 1 1 sample.plain _ _ Hget Hlen)
      as (_ & _ & _ & _ & _ & t1 & t2 & H1 & H2 & Htie & _ & _).
    simpl in H1, H2. inversion H1; subst t1. inversion H2; subst t2.
    etransitivity; [| reflexivity].
    apply (Htie ltac:(unfold getWeight; simpl; lia) (mkWorld sample.weighted ∅)).
    reflexivity.
  - destruct (two_choices quiet 0 0 sample.plain _ _ Hget Hlen)
      as (_ & _ & _ & _ & _ & t1 & t2 & H1 & H2 & _ & Hlower & _).
    simpl in H1, H2. inversion H1; subst t1. inversion H2; subst t2.
    etransitivity; [| reflexivity].
    apply (Hlower ltac:(unfold getWeight; simpl; lia) (mkWorld sample.weighted ∅)).
    reflexivity.
Defined.

(** The spec's scenario: the first call binds the new session to the
    first backend, and the second call returns that backend without
    reserving anything. *)
Example sticky_session_reuses_backend :
  firstAvailableLBPolicy quiet sample.sticky (mkWorld sample.three ∅)
    = Ok (releaseOf 0, Some 0%nat,
          mkWorld (<[0%nat := claimed (sample.tracker "10.0.0.1" 0 1)]> sample.three)
                  {["abc" := "10.0.0.1"]}) /\
  firstAvailableLBPolicy quiet sample.sticky
      (mkWorld (<[0%nat := claimed (sample.tracker "10.0.0.1" 0 1)]> sample.three)
               {["abc" := "10.0.0.1"]})
    = Ok (noop, Some 0%nat,
          mkWorld (<[0%nat := claimed (sample.tracker "10.0.0.1" 0 1)]> sample.three)
                  {["abc" := "10.0.0.1"]}).
Proof. split; reflexivity. Qed.

(** On an empty target set power-of-two-choices indexes [targets[0]]. *)
Example randomChoice2_empty_panics raw1 raw2 :
  randomChoice2Policy quiet raw1 raw2 sample.plain (mkWorld [] ∅) = Panic.
Proof. reflexivity. Qed.

(** *** Two first requests of one new session *)

(** When the other request has bound the session before this one reads
    the binding, this one gives up its reservation and returns no target,
    and its retry finds the other's backend. *)
Example loser_converges_on_retry :
  firstAvailableLBPolicy sample.rival sample.sticky
      (mkWorld (sample.three ++ [sample.tracker "10.0.0.9" 0 1]) ∅)
    = Ok (noop, None,
          mkWorld (sample.three ++ [sample.tracker "10.0.0.9" 0 1])
                  {["abc" := "10.0.0.9"]}) /\
  firstAvailableLBPolicy sample.rival sample.sticky
      (mkWorld (sample.three ++ [sample.tracker "10.0.0.9" 0 1]) {["abc" := "10.0.0.9"]})
    = Ok (noop, Some 3%nat,
          mkWorld (sample.three ++ [sample.tracker "10.0.0.9" 0 1])
                  {["abc" := "10.0.0.9"]}).
Proof. split; reflexivity. Qed.

(** C3.  The claim asks that two concurrent first requests of a new
    session end up on the same backend.  [setSession] reads the binding
    and writes it in two separate store commands, and the code does not
    keep the two together: two backends with one free slot each, session
    key [abc] unbound; the first request reserves the first backend and
    reads no binding; the second request then runs completely, finding
    the first backend full, reserving the second, reading no binding and
    binding the key to the second; the first request then writes its own
    binding.  Both calls return a target, the targets differ, and neither
    request is told to retry. *)
Theorem racing_first_requests_diverge :
  firstAvailableLBPolicy quiet sample.sticky
      (mkWorld [sample.tracker "10.0.0.1" 1 1; sample.tracker "10.0.0.2" 0 1] ∅)
    = Ok (releaseOf 1, Some 1%nat,
          mkWorld [sample.tracker "10.0.0.1" 1 1; sample.tracker "10.0.0.2" 1 1]
                  {["abc" := "10.0.0.2"]}) /\
  firstAvailableLBPolicy sample.overlapping sample.sticky (mkWorld sample.two ∅)
    = Ok (releaseOf 0, Some 0%nat,
          mkWorld [sample.tracker "10.0.0.1" 1 1; sample.tracker "10.0.0.2" 1 1]
                  {["abc" := "10.0.0.1"]}).
Proof. split; reflexivity. Qed.

End NetProps.

(** ** The session key resolver *)

Module ResolverProps.
Import resolver.

Lemma pathSegment_rule r a key record :
  index_not_negative a key ->
  handler.pathSegment r (annot a key) = Ok (fst <$> configuredPath key record r a).
Proof.
  intros Hpos. unfold handler.pathSegment, configuredPath.
  destruct (nonempty (annot a key)) eqn:Hne.
  - destruct (Atoi (annot a key)) as [n|] eqn:Hn; [| reflexivity].
    specialize (Hpos n Hn).
    replace (0 <=? n)%Z with true by (symmetry; apply Z.leb_le; exact Hpos).
    fold (segments r).
    destruct (n <? Z.of_nat (length (segments r)))%Z eqn:Hlt.
    + apply Z.ltb_lt in Hlt. unfold index.
      replace (n <? 0)%Z with false by (symmetry; apply Z.ltb_ge; exact Hpos).
      destruct (lookup_lt_is_Some_2 (segments r) (Z.to_nat n)) as [x Hx]; [lia |].
      rewrite Hx. reflexivity.
    + apply Z.ltb_ge in Hlt.
      rewrite (lookup_ge_None_2 (segments r) (Z.to_nat n)) by lia. reflexivity.
  - apply nonempty_false in Hne. rewrite Hne. reflexivity.
Qed.

Lemma first_match_hit (f : rule) rules r a x :
  f r a = Some x -> first_match (f :: rules) r a = x.
Proof. intros H. unfold first_match. cbn [omap list_omap]. rewrite H. reflexivity. Qed.

Lemma first_match_miss (f : rule) rules r a :
  f r a = None -> first_match (f :: rules) r a = first_match rules r a.
Proof. intros H. unfold first_match. cbn [omap list_omap]. rewrite H. reflexivity. Qed.

Lemma explicitHeader_cases r a :
  let v := Header_Get (Header r) "K-Session" in
  (nonempty v = true /\ explicitHeader r a = Some (v, false)) \/
  (nonempty v = false /\ explicitHeader r a = None).
Proof.
  intros v. unfold explicitHeader. fold v. destruct (nonempty v); [left | right]; auto.
Qed.

Lemma configuredHeader_cases key record r a :
  (nonempty (annot a key) = true /\
   configuredHeader key record r a = Some (Header_Get (Header r) (annot a key), record)) \/
  (nonempty (annot a key) = false /\ configuredHeader key record r a = None).
Proof.
  unfold configuredHeader. destruct (nonempty (annot a key)); [left | right]; auto.
Qed.

Lemma configuredQuery_cases key record r a :
  (nonempty (annot a key) = true /\
   configuredQuery key record r a = Some (Values_Get (Query r) (annot a key), record)) \/
  (nonempty (annot a key) = false /\ configuredQuery key record r a = None).
Proof.
  unfold configuredQuery. destruct (nonempty (annot a key)); [left | right]; auto.
Qed.

Lemma configuredPath_cases key record r a :
  (exists x, configuredPath key record r a = Some (x, record)) \/
  configuredPath key record r a = None.
Proof.
  unfold configuredPath. destruct (Atoi (annot a key)) as [n|]; [| right; reflexivity].
  destruct (0 <=? n)%Z; [| right; reflexivity].
  destruct (segments r !! Z.to_nat n) as [x|]; [left; exists x | right]; reflexivity.
Qed.

Lemma recorded_sticky r x :
  handler.addStickySessionHeader r x = (x, recorded r (x, true)).
Proof.
  unfold handler.addStickySessionHeader, recorded. simpl.
  destruct (nonempty x); reflexivity.
Qed.

Lemma net_path_rule r a :
  index_not_negative a "activator.knative.dev/session-path" ->
  (if nonempty (annot a "activator.knative.dev/session-path") then
     match Atoi (annot a "activator.knative.dev/session-path") with
     | Some n =>
         if (n <? Z.of_nat (length (segments r)))%Z then index (segments r) n else Ok ""
     | None => Ok ""
     end
   else Ok "")
  = Ok (default "" (fst <$> configuredPath "activator.knative.dev/session-path" false r a)).
Proof.
  intros Hp. pose proof (pathSegment_rule r a _ false Hp) as Hseg.
  unfold handler.pathSegment in Hseg. fold (segments r) in Hseg.
  destruct (configuredPath "activator.knative.dev/session-path" false r a) as [[x b]|];
    cbn [fmap option_fmap option_map default fst] in *;
    destruct (nonempty (annot a "activator.knative.dev/session-path"));
    try discriminate Hseg; try reflexivity;
    destruct (Atoi (annot a "activator.knative.dev/session-path")) as [n|];
    try discriminate Hseg; try reflexivity;
    destruct (n <? Z.of_nat (length (segments r)))%Z;
    try discriminate Hseg; try reflexivity;
    destruct (index (segments r) n); inversion Hseg; reflexivity.
Qed.

(** One rule of the list: it matches and the goal closes, or it does not
    and the next rule is up. *)
Ltac try_rule cases :=
  let E := fresh "E" in
  let H := fresh "H" in
  destruct cases as [[E H] | [E H]]; cbv zeta in E; try rewrite E;
  [rewrite ?(first_match_hit _ _ _ _ _ H), ?recorded_sticky; reflexivity
  | rewrite ?(first_match_miss _ _ _ _ H)].

Ltac try_path_rule cases :=
  let x := fresh "x" in
  let H := fresh "H" in
  destruct cases as [[x H] | H]; try rewrite H;
  cbn [fmap option_fmap option_map fst default];
  [rewrite ?(first_match_hit _ _ _ _ _ H), ?recorded_sticky; reflexivity
  | rewrite ?(first_match_miss _ _ _ _ H)].

(** C8, as the code has it.  [handler.getSession] returns the first match
    of eight rules, in this order: the explicit sticky-session header; the
    header, the query parameter and the path segment configured for the
    session, whose key, when not empty, is also recorded on the request as
    the sticky-session header; the header, the query parameter and the
    path segment configured for the revision; the revision sticky header.
    A configured header or query parameter is a match even when its value
    is empty; a path index that is not a number, or is at or past the
    number of segments, is no match and the next rule is tried.
    [net.sessionFrom] returns the first match of the first four rules
    under its own annotation names, records nothing, and returns the
    empty string when none matches.  (Path indexes below zero are left
    out of the statement.) *)
Theorem session_key_precedence (r : Request) (a : gmap string string) :
  index_not_negative a "activator.knative.dev/sticky-session-path-segment" ->
  index_not_negative a "activator.knative.dev/sticky-revision-path-segment" ->
  index_not_negative a "activator.knative.dev/session-path" ->
  handler.getSession r a
    = Ok ((first_match handlerRules (marked r a) a).1,
          recorded (marked r a) (first_match handlerRules (marked r a) a)) /\
  net.sessionFrom (net.mkPair r a) = Ok (first_match policyRules r a).1 /\
  (first_match policyRules r a).2 = false.
Proof.
  intros Hs Hr Hp. split; [| split].
  - unfold handler.getSession. fold (marked r a).
    set (r' := marked r a).
    rewrite (pathSegment_rule r' a _ true Hs).
    rewrite (pathSegment_rule r' a _ false Hr).
    unfold handlerRules, handler.stickySessionHeaderName,
      handler.stickyRevisionHeaderName.
    try_rule (explicitHeader_cases r' a).
    try_rule (configuredHeader_cases
                "activator.knative.dev/sticky-session-header-name" true r' a).
    try_rule (configuredQuery_cases
                "activator.knative.dev/sticky-session-query-parameter" true r' a).
    rewrite bind_Ok.
    try_path_rule (configuredPath_cases
                     "activator.knative.dev/sticky-session-path-segment" true r' a).
    try_rule (configuredHeader_cases
                "activator.knative.dev/sticky-revision-header-name" false r' a).
    try_rule (configuredQuery_cases
                "activator.knative.dev/sticky-revision-query-parameter" false r' a).
    rewrite bind_Ok.
    try_path_rule (configuredPath_cases
                     "activator.knative.dev/sticky-revision-path-segment" false r' a).
    reflexivity.
  - unfold net.sessionFrom. cbn [net.request net.annotations]. cbv zeta.
    fold (segments r). rewrite (net_path_rule r a Hp).
    unfold policyRules.
    try_rule (explicitHeader_cases r a).
    try_rule (configuredHeader_cases "activator.knative.dev/session-header" false r a).
    try_rule (configuredQuery_cases "activator.knative.dev/session-query" false r a).
    try_path_rule (configuredPath_cases "activator.knative.dev/session-path" false r a).
    reflexivity.
  - unfold policyRules.
    try_rule (explicitHeader_cases r a).
    try_rule (configuredHeader_cases "activator.knative.dev/session-header" false r a).
    try_rule (configuredQuery_cases "activator.knative.dev/session-query" false r a).
    try_path_rule (configuredPath_cases "activator.knative.dev/session-path" false r a).
    reflexivity.
Qed.

Lemma session_key_precedence_witness :
  handler.getSession sample.crowded sample.crowdedAnnotations
    = Ok ("q1", withHeader sample.crowded
                  (Header_Add (Header sample.crowded) "K-Session" "q1")) /\
  net.sessionFrom (net.mkPair sample.crowded sample.crowdedAnnotations) = Ok "".
Proof.
  assert (H1 : index_not_negative sample.crowdedAnnotations
                 "activator.knative.dev/sticky-session-path-segment").
  { intros n H. vm_compute in H. inversion H. lia. }
  assert (H2 : index_not_negative sample.crowdedAnnotations
                 "activator.knative.dev/sticky-revision-path-segment").
  { intros n H. vm_compute in H. discriminate H. }
  assert (H3 : index_not_negative sample.crowdedAnnotations
                 "activator.knative.dev/session-path").
  { intros n H. vm_compute in H. discriminate H. }
  destruct (session_key_precedence sample.crowded sample.crowdedAnnotations H1 H2 H3)
    as (Hh & Hn & _).
  split.
  - etransitivity; [exact Hh | reflexivity].
  - etransitivity; [exact Hn | reflexivity].
Defined.

(** C8 fails as stated.  With the query parameter configured for the
    revision, [handler.getSession] returns that parameter where the five
    rules of the claim give the revision sticky header; and
    [net.sessionFrom] has no rule for the revision sticky header at all. *)
Lemma resolver_differs_from_five_rules :
  handler.getSession sample.revisionQuery sample.revisionQueryAnnotations
    = Ok ("q1", sample.revisionQuery) /\
  Resolve sample.revisionQuery sample.revisionQueryAnnotations = "r1" /\
  net.sessionFrom (net.mkPair sample.revisionQuery ∅) = Ok "" /\
  Resolve sample.revisionQuery ∅ = "r1".
Proof. repeat split. Qed.

(** A path index below zero passes the range check of the code and the
    indexing panics. *)
Example negative_path_index_panics :
  handler.getSession sample.crowded
    {["activator.knative.dev/sticky-session-path-segment" := "-1"]} = Panic /\
  net.sessionFrom
    (net.mkPair sample.crowded {["activator.knative.dev/session-path" := "-1"]}) = Panic.
Proof. split; reflexivity. Qed.

End ResolverProps.

(** ** The sticky-revision loop of the context handler *)

Module HandlerProps.
Import store handler.

Lemma CASValue_unset (kv : gmap string string) key desired :
  kv !! key = None -> CASValue kv key "" desired = (desired, <[key := desired]> kv).
Proof.
  intros H. unfold CASValue, CAS. rewrite H.
  rewrite bool_decide_eq_false_2 by discriminate.
  rewrite bool_decide_eq_true_2 by reflexivity. reflexivity.
Qed.

Lemma CASValue_match (kv : gmap string string) key expected desired :
  kv !! key = Some expected ->
  CASValue kv key expected desired = (desired, <[key := desired]> kv).
Proof.
  intros H. unfold CASValue, CAS. rewrite H.
  rewrite bool_decide_eq_true_2 by reflexivity. reflexivity.
Qed.

Lemma CASValue_mismatch (kv : gmap string string) key expected desired cur :
  kv !! key = Some cur -> cur <> expected ->
  CASValue kv key expected desired = (cur, kv).
Proof.
  intros H Hne. unfold CASValue, CAS, Get. rewrite H.
  rewrite bool_decide_eq_false_2 by congruence.
  rewrite bool_decide_eq_false_2 by discriminate. reflexivity.
Qed.

(** Under a flapping binding every compare-and-swap of the request fails
    and every observed revision is gone: the loop is still running when
    any amount of fuel is spent. *)
Lemma stickyLoop_spins : forall fuel i kv v,
  v <> sample.flap i ->
  stickyLoop sample.cluster sample.flapping "abc" sample.helloID sample.hello
    fuel i kv v = OutOfFuel.
Proof.
  induction fuel as [|fuel IH]; intros i kv v Hv; [reflexivity |].
  cbn [stickyLoop].
  rewrite (CASValue_mismatch (sample.flapping i kv) ("rev/" ++ "abc") v _ (sample.flap i)).
  - assert (Hnext : sample.flap i <> sample.flap (S i)).
    { unfold sample.flap. rewrite Nat.even_succ, <- Nat.negb_even.
      destruct (Nat.even i); discriminate. }
    specialize (IH (S i) (sample.flapping i kv) (sample.flap i) Hnext).
    unfold sample.flap in *. destruct (Nat.even i); exact IH.
  - unfold sample.flapping. apply lookup_insert_eq.
  - congruence.
Qed.

(** C1 fails as stated: no number of retries bounds the loop.  Whatever
    bound is proposed, under a flapping binding the request is still in
    the loop after that many compare-and-swap attempts, and no failure
    has been surfaced. *)
Lemma sticky_loop_has_no_retry_bound :
  ~ exists bound : nat,
      forall churn kv,
        stickyLoop sample.cluster churn "abc" sample.helloID sample.hello
          bound 0 kv "" <> OutOfFuel.
Proof.
  intros [bound H]. apply (H sample.flapping ∅).
  apply stickyLoop_spins. discriminate.
Qed.

Lemma NamespacedName_String_nonempty (n : NamespacedName) :
  NamespacedName_String n <> "".
Proof.
  unfold NamespacedName_String. destruct (Namespace n); discriminate.
Qed.

(** C1, as the code has it.  The loop has no retry bound and surfaces no
    failure; what ends it is a successful swap or a sticky revision that
    resolves.  When no other client writes the store while the request is
    in the loop, it ends within two compare-and-swap attempts: an unset or
    empty binding is swapped for the request's own revision at once; a
    binding to the request's own revision is kept; a binding of the form
    namespace/name to a revision that resolves overrides the request's
    revision; and one to a revision that does not resolve is replaced on
    the second attempt, which expects the value the first one observed. *)
Theorem sticky_loop_settles c churn session revID revision kv fuel :
  let key := "rev/" ++ session in
  let own := NamespacedName_String revID in
  let loop := stickyLoop c churn session revID revision fuel 0 kv "" in
  (forall i m, churn i m = m) ->
  (2 <= fuel)%nat ->
  (kv !! key = None \/ kv !! key = Some "" ->
   loop = Done (revID, revision, <[key := own]> kv)) /\
  (kv !! key = Some own -> loop = Done (revID, revision, kv)) /\
  (forall cur namespace name,
     kv !! key = Some cur -> cur <> "" -> cur <> own ->
     SplitN cur Separator 2 = [namespace; name] ->
     (forall stickyRevision,
        revisionLister c namespace name = inl stickyRevision ->
        loop = Done (mkNamespacedName namespace name, stickyRevision, kv)) /\
     (forall err,
        revisionLister c namespace name = inr err ->
        loop = Done (revID, revision, <[key := own]> kv))).
Proof.
  intros key own loop Hstill Hfuel.
  destruct fuel as [|[|fuel]]; [lia | lia |].
  assert (Hown : String.eqb own own = true) by apply String.eqb_refl.
  split; [| split].
  - intros [Hnone | Hempty]; unfold loop; cbn [stickyLoop]; rewrite Hstill; fold key own.
    + rewrite (CASValue_unset kv key own Hnone), Hown. reflexivity.
    + rewrite (CASValue_match kv key "" own Hempty), Hown. reflexivity.
  - intros Hself. unfold loop. cbn [stickyLoop]. rewrite Hstill. fold key own.
    rewrite (CASValue_mismatch kv key "" own own Hself)
      by apply NamespacedName_String_nonempty.
    rewrite Hown. reflexivity.
  - intros cur namespace name Hcur Hne Hother Hsplit.
    assert (Hfirst : forall k,
      (let '(v, kv') := CASValue (churn 0%nat kv) key "" own in
       if String.eqb v own then Done (revID, revision, kv')
       else match index (SplitN v Separator 2) 0, index (SplitN v Separator 2) 1 with
            | Ok namespace, Ok name => k namespace name kv' v
            | _, _ => Panicked
            end) = k namespace name kv cur).
    { intros k. rewrite Hstill, (CASValue_mismatch kv key "" own cur Hcur Hne).
      apply String.eqb_neq in Hother. rewrite Hother, Hsplit. reflexivity. }
    split.
    + intros stickyRevision Hres. unfold loop. cbn [stickyLoop]. fold key own.
      rewrite (Hfirst (fun namespace name kv' v =>
                 match revisionLister c namespace name with
                 | inl stickyRevision => Done (mkNamespacedName namespace name, stickyRevision, kv')
                 | inr _ => _
                 end)).
      rewrite Hres. reflexivity.
    + intros err Hres. unfold loop. cbn [stickyLoop]. fold key own.
      rewrite (Hfirst (fun namespace name kv' v =>
                 match revisionLister c namespace name with
                 | inl stickyRevision => Done (mkNamespacedName namespace name, stickyRevision, kv')
                 | inr _ => _
                 end)).
      rewrite Hres, Hstill.
      rewrite (CASValue_match kv key cur own Hcur), Hown. reflexivity.
Qed.

Lemma sticky_loop_settles_witness :
  stickyLoop sample.cluster sample.still "abc" sample.helloID sample.hello
    2 0 {["rev/abc" := "gone/a"]} ""
  = Done (sample.helloID, sample.hello, {["rev/abc" := "default/hello"]}).
Proof.
  assert (Hstill : forall i m, sample.still i m = m) by reflexivity.
  assert (Hfuel : (2 <= 2)%nat) by lia.
  destruct (sticky_loop_settles sample.cluster sample.still "abc" sample.helloID
              sample.hello {["rev/abc" := "gone/a"]} 2 Hstill Hfuel)
    as (_ & _ & Hbound).
  assert (Hcur : ({["rev/abc" := "gone/a"]} : gmap string string) !! ("rev/" ++ "abc")
                 = Some "gone/a") by reflexivity.
  assert (H1 : "gone/a" <> "") by discriminate.
  assert (H2 : "gone/a" <> NamespacedName_String sample.helloID) by discriminate.
  destruct (Hbound "gone/a" "gone" "a" Hcur H1 H2 eq_refl) as [_ Hgone].
  etransitivity; [exact (Hgone NotFound eq_refl) | reflexivity].
Defined.

(** A stored value without the separator that is neither empty nor the
    request's own revision makes the first iteration panic. *)
Lemma stickyLoop_no_separator c churn session revID revision kv fuel cur :
  churn 0%nat kv !! ("rev/" ++ session) = Some cur ->
  cur <> "" -> cur <> NamespacedName_String revID ->
  SplitN cur Separator 2 = [cur] ->
  stickyLoop c churn session revID revision (S fuel) 0 kv "" = Panicked.
Proof.
  intros Hcur Hne Hother Hsplit. cbn [stickyLoop].
  rewrite (CASValue_mismatch _ _ "" _ cur Hcur Hne).
  apply String.eqb_neq in Hother. rewrite Hother, Hsplit. reflexivity.
Qed.

(** C2.  The claim asks that a stored sticky value without the separator
    be treated as "stickiness unavailable".  The code does not do that:
    on the request for [default/hello] with session key [abc], when the
    store holds [garbage] under [rev/abc], the handler splits the value
    into one part, reads the second part and panics; with the key unset
    the same request is forwarded with its own revision. *)
Theorem malformed_sticky_value_panics :
  ServeHTTP sample.cluster sample.still 3 sample.helloRequest {["rev/abc" := "garbage"]}
    = Panicked /\
  ServeHTTP sample.cluster sample.still 3 sample.helloRequest ∅
    = Done (Forward sample.hello sample.helloID sample.helloRequest,
            {["rev/abc" := "default/hello"]}).
Proof. split; reflexivity. Qed.

End HandlerProps.

(** * Further properties of the code *)

(** ** The store commands *)

Module StoreExtra.
Import store StoreProps.

(** X1. What [Set] wrote under a key is what [Get] reads there, whatever
    the key held before, and no other key reads differently. *)
Theorem Set_then_Get (kv : gmap string string) key value other :
  Get (Set_ kv key value) key = value /\
  (other <> key -> Get (Set_ kv key value) other = Get kv other).
Proof.
  unfold Get, Set_. split.
  - rewrite lookup_insert_eq. reflexivity.
  - intros Hne. rewrite lookup_insert_ne by congruence. reflexivity.
Qed.

Lemma Set_then_Get_witness :
  Get (Set_ {["abc" := "10.0.0.1"]} "abc" "10.0.0.2") "abc" = "10.0.0.2" /\
  Get (Set_ {["abc" := "10.0.0.1"]} "xyz" "10.0.0.2") "abc" = "10.0.0.1".
Proof.
  split.
  - apply (Set_then_Get {["abc" := "10.0.0.1"]} "abc" "10.0.0.2" "abc").
  - rewrite (proj2 (Set_then_Get {["abc" := "10.0.0.1"]} "xyz" "10.0.0.2" "abc"))
      by discriminate.
    reflexivity.
Defined.

(** X2. [Del] deletes on an exact match only.  It returns 1 exactly when
    the key holds the given value, and the key is unset afterwards;
    otherwise it returns 0 and the store is the same, also when the key
    is unset and the given value is empty.  No other key is touched. *)
Theorem Del_exact (kv : gmap string string) key value :
  (kv !! key = Some value ->
   Del kv key value = (1%Z, delete key kv) /\ Get (Del kv key value).2 key = "") /\
  (kv !! key <> Some value -> Del kv key value = (0%Z, kv)) /\
  ((Del kv key value).1 = 1%Z \/ (Del kv key value).1 = 0%Z) /\
  (forall other, other <> key -> (Del kv key value).2 !! other = kv !! other).
Proof.
  repeat split.
  - apply Del_match. assumption.
  - rewrite (Del_match _ _ _ H). unfold Get. simpl. rewrite lookup_delete_eq. reflexivity.
  - apply Del_mismatch.
  - unfold Del. destruct (decide (kv !! key = Some value)); [left | right]; reflexivity.
  - intros other Hne. unfold Del.
    destruct (decide (kv !! key = Some value)); simpl; [| reflexivity].
    apply lookup_delete_ne. congruence.
Qed.

Lemma Del_exact_witness :
  Del {["abc" := "10.0.0.1"]} "abc" "10.0.0.1" = (1%Z, ∅) /\
  Del {["abc" := "10.0.0.1"]} "abc" "10.0.0.2" = (0%Z, {["abc" := "10.0.0.1"]}) /\
  Del ∅ "abc" "" = (0%Z, ∅).
Proof.
  assert (H1 : ({["abc" := "10.0.0.1"]} : gmap string string) !! "abc"
               = Some "10.0.0.1") by reflexivity.
  assert (H2 : ({["abc" := "10.0.0.1"]} : gmap string string) !! "abc"
               <> Some "10.0.0.2") by discriminate.
  assert (H3 : (∅ : gmap string string) !! "abc" <> Some "") by discriminate.
  split; [| split].
  - etransitivity; [| reflexivity].
    exact (proj1 (proj1 (Del_exact _ "abc" "10.0.0.1") H1)).
  - exact (proj1 (proj2 (Del_exact _ "abc" "10.0.0.2")) H2).
  - exact (proj1 (proj2 (Del_exact _ "abc" "")) H3).
Defined.

Lemma CAS_swapped (kv : gmap string string) key expected desired :
  (CAS kv key expected desired).1 = true ->
  (kv !! key = Some expected \/ (kv !! key = None /\ expected = "")) /\
  (CAS kv key expected desired).2 = <[key := desired]> kv.
Proof.
  unfold CAS.
  destruct (bool_decide (kv !! key = Some expected)
            || bool_decide (kv !! key = None) && String.eqb expected "") eqn:E;
    simpl; [intros _ | discriminate].
  split; [| reflexivity].
  apply orb_true_iff in E as [E | E].
  - left. apply bool_decide_eq_true_1 in E. exact E.
  - right. apply andb_true_iff in E as [E1 E2].
    apply bool_decide_eq_true_1 in E1. apply String.eqb_eq in E2. auto.
Qed.

Lemma CAS_not_swapped (kv : gmap string string) key expected desired :
  (CAS kv key expected desired).1 = false -> (CAS kv key expected desired).2 = kv.
Proof. unfold CAS. destruct (_ || _); [discriminate | reflexivity]. Qed.

(** X3. [CAS] swaps exactly when the key holds the expected value, or is
    unset while the expected value is empty.  After a swap the key reads
    as the desired value; without one the store is the same.  No other
    key is touched. *)
Theorem CAS_exact (kv : gmap string string) key expected desired :
  ((CAS kv key expected desired).1 = true <->
   kv !! key = Some expected \/ (kv !! key = None /\ expected = "")) /\
  ((CAS kv key expected desired).1 = true ->
   Get (CAS kv key expected desired).2 key = desired) /\
  ((CAS kv key expected desired).1 = false ->
   (CAS kv key expected desired).2 = kv) /\
  (forall other, other <> key ->
     (CAS kv key expected desired).2 !! other = kv !! other).
Proof.
  unfold CAS.
  destruct (bool_decide (kv !! key = Some expected)
            || bool_decide (kv !! key = None) && String.eqb expected "") eqn:E;
    simpl.
  - apply orb_true_iff in E.
    repeat split; try discriminate.
    + intros _. destruct E as [E | E].
      * left. apply bool_decide_eq_true_1 in E. exact E.
      * right. apply andb_true_iff in E as [E1 E2].
        apply bool_decide_eq_true_1 in E1. apply String.eqb_eq in E2. auto.
    + intros _. unfold Get. rewrite lookup_insert_eq. reflexivity.
    + intros other Hne. apply lookup_insert_ne. congruence.
  - apply orb_false_iff in E as [E1 E2].
    apply bool_decide_eq_false_1 in E1.
    repeat split; try discriminate; try reflexivity.
    intros [H | [H1 H2]]; [contradiction |].
    apply andb_false_iff in E2 as [E2 | E2].
    + apply bool_decide_eq_false_1 in E2. contradiction.
    + apply String.eqb_neq in E2. contradiction.
Qed.

Lemma CAS_exact_witness :
  (CAS {["rev/abc" := "default/a"]} "rev/abc" "default/a" "default/b").1 = true /\
  Get (CAS ∅ "rev/abc" "" "default/b").2 "rev/abc" = "default/b" /\
  (CAS {["rev/abc" := "default/a"]} "rev/abc" "" "default/b").2
    = {["rev/abc" := "default/a"]}.
Proof.
  split; [| split].
  - apply (proj1 (CAS_exact {["rev/abc" := "default/a"]} "rev/abc" "default/a" "default/b")).
    left. reflexivity.
  - apply (proj1 (proj2 (CAS_exact ∅ "rev/abc" "" "default/b"))). reflexivity.
  - apply (proj1 (proj2 (proj2
             (CAS_exact {["rev/abc" := "default/a"]} "rev/abc" "" "default/b")))).
    reflexivity.
Defined.

(** X4. Of two compare-and-swaps on one key that expect the same value
    and want different ones, run one after the other, the first swaps and
    the second does not: the store keeps the first one's value, whichever
    state the first swap started from. *)
Theorem CAS_single_winner (kv : gmap string string) key expected first second :
  (CAS kv key expected first).1 = true ->
  first <> expected ->
  (CAS (CAS kv key expected first).2 key expected second).1 = false /\
  Get (CAS (CAS kv key expected first).2 key expected second).2 key = first.
Proof.
  intros Hswap Hne.
  rewrite (proj2 (CAS_swapped _ _ _ _ Hswap)).
  assert (Hlose : (CAS (<[key := first]> kv) key expected second).1 = false).
  { destruct (CAS (<[key := first]> kv) key expected second).1 eqn:E; [| reflexivity].
    apply CAS_swapped in E as [E _].
    rewrite lookup_insert_eq in E.
    destruct E as [E | [E _]]; [congruence | discriminate]. }
  split; [exact Hlose |].
  rewrite (CAS_not_swapped _ _ _ _ Hlose).
  unfold Get. rewrite lookup_insert_eq. reflexivity.
Qed.

Lemma CAS_single_winner_witness :
  (CAS (CAS ∅ "rev/abc" "" "default/a").2 "rev/abc" "" "default/b").1 = false /\
  Get (CAS (CAS ∅ "rev/abc" "" "default/a").2 "rev/abc" "" "default/b").2 "rev/abc"
    = "default/a".
Proof.
  apply (CAS_single_winner ∅ "rev/abc" "" "default/a" "default/b").
  - reflexivity.
  - discriminate.
Defined.

End StoreExtra.

(** ** The policies as a user of the package sees them *)

Module NetExtra.
Import store net policies StoreProps NetProps.

#[local] Arguments Reserve : simpl never.

Lemma bound_to_unbind s d w : bound_to s d (kv (unbind s w)) = bound_to s d (kv w).
Proof.
  unfold bound_to, unbind. destruct (nonempty s); [| reflexivity].
  simpl. apply insert_delete_eq.
Qed.

Lemma unbind_trackers s w : trackers (unbind s w) = trackers w.
Proof. unfold unbind. destruct (nonempty s); reflexivity. Qed.

Lemma unbind_unset s w : s = "" \/ kv (unbind s w) !! s = None.
Proof.
  unfold unbind. destruct (nonempty s) eqn:E.
  - right. apply lookup_delete_eq.
  - left. apply nonempty_false. exact E.
Qed.

(** The two ways the session lookup can end. *)
Lemma getSession_cases p w s :
  sessionFrom p = Ok s ->
  (exists i t,
     s <> "" /\ dest t <> "" /\ kv w !! s = Some (dest t) /\
     list_find (hasDest (dest t)) (trackers w) = Some (i, t) /\
     getSession p w = Ok (Some i, w)) \/
  (no_bound_tracker s w /\ getSession p w = Ok (None, unbind s w)).
Proof.
  intros Hs. unfold getSession, no_bound_tracker, unbind. rewrite Hs, bind_Ok.
  destruct (nonempty s) eqn:Es; [| right; split; [left; apply nonempty_false |]; auto].
  rewrite Del_observed.
  destruct (nonempty (Get (kv w) s)) eqn:Ed.
  - destruct (list_find (hasDest (Get (kv w) s)) (trackers w)) as [[i t]|] eqn:Ef.
    + left. exists i, t.
      pose proof Ef as Hf. apply list_find_Some in Hf as (_ & Hd & _).
      unfold hasDest in Hd. apply nonempty_true in Es, Ed.
      rewrite <- Hd. repeat split; auto.
      apply Get_nonempty. exact Ed.
    + right. split; [right; right; reflexivity | reflexivity].
  - right. split; [right; left; apply nonempty_false; exact Ed | reflexivity].
Qed.

Lemma setSession_quiet p pick w s :
  sessionFrom p = Ok s -> s = "" \/ kv w !! s = None ->
  setSession quiet p pick w = Ok (true, withKv w (bound_to s pick (kv w))).
Proof.
  intros Hs Hfree. unfold setSession, bound_to. rewrite Hs, bind_Ok.
  destruct (nonempty s) eqn:Es.
  - destruct Hfree as [-> | Hnone]; [discriminate |].
    unfold Get. rewrite Hnone. reflexivity.
  - destruct w. reflexivity.
Qed.

Lemma reserved_quiet p w q t' s :
  sessionFrom p = Ok s -> s = "" \/ kv w !! s = None ->
  reserved quiet p w q t'
    = Ok (true, mkWorld (<[q := t']> (trackers w)) (bound_to s (dest t') (kv w))).
Proof.
  intros Hs Hfree. unfold reserved. cbn [before quiet].
  rewrite (setSession_quiet p _ _ s Hs) by exact Hfree. reflexivity.
Qed.

Lemma alter_as_insert (f : podTracker -> podTracker) (ts : list podTracker) q t :
  ts !! q = Some t -> alter f q ts = <[q := f t]> ts.
Proof.
  intros Hq. apply list_eq. intros j. destruct (decide (q = j)) as [<- | Hne].
  - rewrite list_lookup_alter_eq, list_lookup_insert_eq
      by (eapply lookup_lt_Some; exact Hq).
    rewrite Hq. reflexivity.
  - rewrite list_lookup_alter_ne, list_lookup_insert_ne by exact Hne. reflexivity.
Qed.

Lemma choose_quiet p w q t s :
  sessionFrom p = Ok s -> s = "" \/ kv w !! s = None ->
  trackers w !! q = Some t ->
  choose quiet p w q t
    = Ok (decreaseWeightOf q, Some q,
          mkWorld (<[q := increaseWeight t]> (trackers w)) (bound_to s (dest t) (kv w))).
Proof.
  intros Hs Hfree Hq. unfold choose. cbn [before quiet].
  rewrite (setSession_quiet p _ _ s Hs) by exact Hfree.
  rewrite bind_Ok. cbn [withKv withTrackers trackers kv].
  rewrite (alter_as_insert _ _ _ _ Hq). reflexivity.
Qed.

Lemma firstAvailable_loop_cases p w s r : forall n i,
  sessionFrom p = Ok s -> s = "" \/ kv w !! s = None ->
  firstAvailable_loop quiet p w n i = Ok r ->
  r = (noop, None, w) \/
  exists q t,
    trackers w !! q = Some t /\ hasCapacity t = true /\
    r = (releaseOf q, Some q,
         mkWorld (<[q := claimed t]> (trackers w)) (bound_to s (dest t) (kv w))).
Proof.
  induction n as [|n IH]; intros i Hs Hfree Hr; simpl in Hr.
  - left. congruence.
  - destruct (trackers w !! i) as [t|] eqn:Ht; [| discriminate].
    unfold Reserve in Hr. destruct (hasCapacity t) eqn:Hcap.
    + rewrite (reserved_quiet p w i (claimed t) s Hs Hfree) in Hr.
      rewrite bind_Ok in Hr. simpl in Hr.
      right. exists i, t. split; [exact Ht |]. split; [exact Hcap |]. congruence.
    + apply (IH (S i) Hs Hfree Hr).
Qed.

Lemma roundRobin_loop_cases p w s idx l r : forall n i,
  sessionFrom p = Ok s -> s = "" \/ kv w !! s = None ->
  roundRobin_loop quiet p w idx l n i = Ok r ->
  r = (noop, None, w, idx) \/
  exists q t,
    trackers w !! q = Some t /\ hasCapacity t = true /\
    r = (releaseOf q, Some q,
         mkWorld (<[q := claimed t]> (trackers w)) (bound_to s (dest t) (kv w)),
         (q + 1)%nat).
Proof.
  induction n as [|n IH]; intros i Hs Hfree Hr; simpl in Hr.
  - left. congruence.
  - destruct (trackers w !! ((idx + i) mod l)%nat) as [t|] eqn:Ht; [| discriminate].
    unfold Reserve in Hr. destruct (hasCapacity t) eqn:Hcap.
    + rewrite (reserved_quiet p w _ (claimed t) s Hs Hfree) in Hr.
      rewrite bind_Ok in Hr. simpl in Hr.
      right. exists ((idx + i) mod l)%nat, t.
      split; [exact Ht |]. split; [exact Hcap |]. congruence.
    + apply (IH (S i) Hs Hfree Hr).
Qed.

Lemma randomChoice2_select_cases p w s raw1 raw2 r :
  sessionFrom p = Ok s -> s = "" \/ kv w !! s = None ->
  randomChoice2_select quiet raw1 raw2 p w = Ok r ->
  exists q t,
    trackers w !! q = Some t /\
    r = (decreaseWeightOf q, Some q,
         mkWorld (<[q := increaseWeight t]> (trackers w)) (bound_to s (dest t) (kv w))).
Proof.
  intros Hs Hfree Hr. unfold randomChoice2_select in Hr.
  destruct (length (trackers w) =? 1)%nat.
  - unfold at_ in Hr. destruct (trackers w !! 0%nat) as [t|] eqn:Ht; [| discriminate].
    rewrite bind_Ok, (choose_quiet p w 0 t s Hs Hfree Ht) in Hr.
    exists 0%nat, t. split; [exact Ht | congruence].
  - destruct (contestants raw1 raw2 (length (trackers w))) as [r1 r2].
    unfold at_ in Hr.
    destruct (trackers w !! r1) as [t1|] eqn:H1; [| discriminate].
    destruct (trackers w !! r2) as [t2|] eqn:H2; [| discriminate].
    rewrite !bind_Ok in Hr.
    destruct (getWeight t2 <? getWeight t1)%Z.
    + rewrite (choose_quiet p w r2 t2 s Hs Hfree H2) in Hr.
      exists r2, t2. split; [exact H2 | congruence].
    + rewrite (choose_quiet p w r1 t1 s Hs Hfree H1) in Hr.
      exists r1, t1. split; [exact H1 | congruence].
Qed.

Lemma picked_after_unbind π s w q t :
  no_bound_tracker s w -> trackers (unbind s w) !! q = Some t -> admits π t ->
  selection π s w
    (given_back π q, Some q,
     mkWorld (<[q := taken π t]> (trackers (unbind s w)))
             (bound_to s (dest t) (kv (unbind s w)))).
Proof.
  intros Hfree Hq Hadm. rewrite bound_to_unbind. rewrite unbind_trackers in *.
  apply sel_picked; assumption.
Qed.

(** Every result of a call that nothing interferes with is a selection. *)
Lemma run_selection π p w s r :
  sessionFrom p = Ok s -> run quiet π p w = Ok r -> selection π s w r.
Proof.
  intros Hs Hr.
  destruct (getSession_cases p w s Hs)
    as [(i & t & Hne & Hd & Hkv & Hfind & Hget) | [Hfree Hget]].
  - assert (r = (noop, Some i, w)) as ->.
    { destruct π; simpl in Hr.
      - unfold firstAvailableLBPolicy in Hr. rewrite Hget in Hr. simpl in Hr. congruence.
      - unfold roundRobinPolicy in Hr. rewrite Hget in Hr. simpl in Hr. congruence.
      - unfold randomChoice2Policy in Hr. rewrite Hget in Hr. simpl in Hr. congruence. }
    apply (sel_bound π s w i t); assumption.
  - pose proof (unbind_unset s w) as Hunset.
    destruct π; simpl in Hr.
    + unfold firstAvailableLBPolicy in Hr. rewrite Hget, bind_Ok in Hr.
      destruct (firstAvailable_loop_cases p _ s r _ _ Hs Hunset Hr)
        as [-> | (q & t & Hq & Hcap & ->)].
      * apply sel_none. exact Hfree.
      * apply (picked_after_unbind FirstAvailable); assumption.
    + unfold roundRobinPolicy in Hr. rewrite Hget, bind_Ok in Hr.
      unfold roundRobin_select in Hr.
      destruct (roundRobin_loop quiet p (unbind s w) _ _ _ _) as [[[[cb pick] w'] idx']|] eqn:E;
        [| discriminate].
      simpl in Hr. inversion Hr; subst r.
      destruct (roundRobin_loop_cases p _ s _ _ _ _ _ Hs Hunset E)
        as [H | (q & t & Hq & Hcap & H)]; inversion H; subst.
      * apply sel_none. exact Hfree.
      * apply (picked_after_unbind (RoundRobin idx)); assumption.
    + unfold randomChoice2Policy in Hr. rewrite Hget, bind_Ok in Hr.
      destruct (randomChoice2_select_cases p _ s _ _ r Hs Hunset Hr) as (q & t & Hq & ->).
      apply (picked_after_unbind (RandomChoice2 raw1 raw2)); [assumption | assumption | exact I].
Qed.

Lemma taken_dest π t : dest (taken π t) = dest t.
Proof. destruct π; reflexivity. Qed.

Lemma taken_maxConcurrency π t : maxConcurrency (taken π t) = maxConcurrency t.
Proof. destruct π; reflexivity. Qed.

Lemma insert_keeps_field {A} (f : podTracker -> A) (ts : list podTracker) q t t' :
  ts !! q = Some t -> f t' = f t -> f <$> <[q := t']> ts = f <$> ts.
Proof.
  intros Hq Hf. rewrite list_fmap_insert, Hf.
  apply list_insert_id. rewrite list_lookup_fmap, Hq. reflexivity.
Qed.

(** X5. A call that nothing interferes with either returns no target,
    and then the release is the no-op and no tracker has changed, or it
    returns a tracker of the set, with the no-op release or with the
    release that belongs to that tracker.  No tracker other than the one
    returned is changed, and destinations and concurrency caps never
    change. *)
Theorem call_result_shape π p w s cb pick w' :
  sessionFrom p = Ok s ->
  run quiet π p w = Ok (cb, pick, w') ->
  (pick = None -> cb = noop /\ trackers w' = trackers w) /\
  (forall i, pick = Some i ->
     (exists t, trackers w !! i = Some t) /\ (cb = noop \/ cb = given_back π i)) /\
  (forall j, pick <> Some j -> trackers w' !! j = trackers w !! j) /\
  dest <$> trackers w' = dest <$> trackers w /\
  maxConcurrency <$> trackers w' = maxConcurrency <$> trackers w.
Proof.
  intros Hs Hr. pose proof (run_selection π p w s _ Hs Hr) as Hsel.
  inversion Hsel as [i t Hne Hd Hkv Hfind | Hfree | q t Hfree Hq Hadm]; subst.
  - apply list_find_Some in Hfind as (Hi & _).
    repeat split; try discriminate; try reflexivity.
    + exists t. congruence.
    + left. reflexivity.
  - rewrite unbind_trackers.
    repeat split; try discriminate; try reflexivity.
  - cbn [trackers].
    repeat split; try discriminate.
    + exists t. congruence.
    + right. congruence.
    + intros j Hj. apply list_lookup_insert_ne. congruence.
    + apply (insert_keeps_field dest _ _ _ _ Hq). apply taken_dest.
    + apply (insert_keeps_field maxConcurrency _ _ _ _ Hq). apply taken_maxConcurrency.
Qed.

Lemma call_result_shape_witness :
  (exists t, sample.three !! 0%nat = Some t) /\
  (releaseOf 0 = noop \/ releaseOf 0 = given_back FirstAvailable 0).
Proof.
  assert (Hrun : run quiet FirstAvailable sample.sticky (mkWorld sample.three ∅)
                 = Ok (releaseOf 0, Some 0%nat,
                       mkWorld (<[0%nat := claimed (sample.tracker "10.0.0.1" 0 1)]>
                                  sample.three)
                               {["abc" := "10.0.0.1"]})) by reflexivity.
  destruct (call_result_shape FirstAvailable sample.sticky _ "abc" _ _ _ eq_refl Hrun)
    as (_ & Hsome & _).
  exact (Hsome 0%nat eq_refl).
Defined.

(** X6. A call that nothing interferes with keeps every tracker within
    its concurrency cap, if all were within it before; power-of-two-
    choices does not change the count of outstanding requests of any
    tracker. *)
Theorem concurrency_cap_kept π p w s cb pick w' :
  sessionFrom p = Ok s ->
  run quiet π p w = Ok (cb, pick, w') ->
  (Forall (fun t => (outstanding t <= maxConcurrency t)%nat) (trackers w) ->
   Forall (fun t => (outstanding t <= maxConcurrency t)%nat) (trackers w')) /\
  (forall raw1 raw2, π = RandomChoice2 raw1 raw2 ->
     outstanding <$> trackers w' = outstanding <$> trackers w).
Proof.
  intros Hs Hr. pose proof (run_selection π p w s _ Hs Hr) as Hsel.
  inversion Hsel as [i t Hne Hd Hkv Hfind | Hfree | q t Hfree Hq Hadm]; subst.
  - split; [auto | reflexivity].
  - rewrite unbind_trackers. split; [auto | reflexivity].
  - cbn [trackers]. split.
    + intros Hall. apply Forall_insert; [exact Hall |].
      pose proof (proj1 (Forall_lookup _ _) Hall q t Hq) as Ht. cbv beta in Ht.
      destruct π; simpl in *; try exact Ht;
        unfold hasCapacity in Hadm; apply Nat.ltb_lt in Hadm; lia.
    + intros raw1 raw2 ->. apply (insert_keeps_field outstanding _ _ _ _ Hq). reflexivity.
Qed.

Lemma concurrency_cap_kept_witness :
  Forall (fun t => (outstanding t <= maxConcurrency t)%nat)
    (<[1%nat := claimed (sample.tracker "10.0.0.2" 0 1)]> sample.three).
Proof.
  assert (Hrun : run quiet (RoundRobin 1) sample.plain (mkWorld sample.three ∅)
                 = Ok (releaseOf 1, Some 1%nat,
                       mkWorld (<[1%nat := claimed (sample.tracker "10.0.0.2" 0 1)]>
                                  sample.three) ∅)) by reflexivity.
  apply (proj1 (concurrency_cap_kept (RoundRobin 1) sample.plain _ "" _ _ _ eq_refl Hrun)).
  repeat constructor.
Defined.

Lemma given_back_undoes_taken π (ts : list podTracker) q t :
  ts !! q = Some t ->
  trackers (call (given_back π q) (mkWorld (<[q := taken π t]> ts) ∅)) = ts.
Proof.
  intros Hq.
  assert (Hlen : (q < length ts)%nat) by (eapply lookup_lt_Some; exact Hq).
  assert (Hweight : decreaseWeight (increaseWeight t) = t).
  { destruct t. unfold decreaseWeight, increaseWeight. simpl. f_equal. lia. }
  destruct π; simpl; apply list_eq; intros j;
    (destruct (decide (q = j)) as [<- | Hne];
     [rewrite list_lookup_alter_eq, list_lookup_insert_eq by exact Hlen;
      simpl; rewrite ?release_claimed, ?Hweight; symmetry; exact Hq
     | rewrite list_lookup_alter_ne, list_lookup_insert_ne by exact Hne; reflexivity]).
Qed.

(** X7. Calling the release that a call returned puts every tracker back
    to what it was before the call: the reservation is given back, or the
    weight is lowered again. *)
Theorem release_restores_trackers π p w s cb pick w' :
  sessionFrom p = Ok s ->
  run quiet π p w = Ok (cb, pick, w') ->
  trackers (call cb w') = trackers w.
Proof.
  intros Hs Hr. pose proof (run_selection π p w s _ Hs Hr) as Hsel.
  inversion Hsel as [i t Hne Hd Hkv Hfind | Hfree | q t Hfree Hq Hadm]; subst.
  - reflexivity.
  - simpl. apply unbind_trackers.
  - pose proof (given_back_undoes_taken π _ _ _ Hq) as Hundo.
    destruct π; exact Hundo.
Qed.

Lemma release_restores_trackers_witness :
  trackers (call (decreaseWeightOf 1)
              (mkWorld (alter increaseWeight 1%nat sample.weighted) ∅))
  = sample.weighted.
Proof.
  assert (Hrun : run quiet (RandomChoice2 1 1) sample.plain (mkWorld sample.weighted ∅)
                 = Ok (decreaseWeightOf 1, Some 1%nat,
                       mkWorld (alter increaseWeight 1%nat sample.weighted) ∅))
    by reflexivity.
  exact (release_restores_trackers (RandomChoice2 1 1) sample.plain _ "" _ _ _
           eq_refl Hrun).
Defined.

(** X8. A call that nothing interferes with touches no key of the store
    but the session key of its request, and does not touch the store at
    all when the request has no session key. *)
Theorem store_footprint π p w s cb pick w' :
  sessionFrom p = Ok s ->
  run quiet π p w = Ok (cb, pick, w') ->
  (s = "" -> kv w' = kv w) /\
  (forall k, k <> s -> kv w' !! k = kv w !! k).
Proof.
  intros Hs Hr. pose proof (run_selection π p w s _ Hs Hr) as Hsel.
  inversion Hsel as [i t Hne Hd Hkv Hfind | Hfree | q t Hfree Hq Hadm]; subst.
  - split; reflexivity.
  - unfold unbind. split.
    + intros ->. reflexivity.
    + intros k Hk. destruct (nonempty s); [| reflexivity].
      simpl. apply lookup_delete_ne. congruence.
  - cbn [kv]. unfold bound_to. split.
    + intros ->. reflexivity.
    + intros k Hk. destruct (nonempty s); [| reflexivity].
      apply lookup_insert_ne. congruence.
Qed.

Lemma store_footprint_witness :
  ({["abc" := "10.0.0.1"; "other" := "10.0.0.9"]} : gmap string string) !! "other"
  = ({["other" := "10.0.0.9"]} : gmap string string) !! "other".
Proof.
  assert (Hrun : run quiet FirstAvailable sample.sticky
                   (mkWorld sample.three {["other" := "10.0.0.9"]})
                 = Ok (releaseOf 0, Some 0%nat,
                       mkWorld (<[0%nat := claimed (sample.tracker "10.0.0.1" 0 1)]>
                                  sample.three)
                               {["abc" := "10.0.0.1"; "other" := "10.0.0.9"]}))
    by reflexivity.
  destruct (store_footprint FirstAvailable sample.sticky _ "abc" _ _ _ eq_refl Hrun)
    as [_ Hother].
  apply (Hother "other"). discriminate.
Defined.

Lemma run_bound e π p w i :
  getSession p w = Ok (Some i, w) -> run e π p w = Ok (noop, Some i, w).
Proof.
  intros Hget. destruct π; simpl.
  - unfold firstAvailableLBPolicy. rewrite Hget. reflexivity.
  - unfold roundRobinPolicy. rewrite Hget. reflexivity.
  - unfold randomChoice2Policy. rewrite Hget. reflexivity.
Qed.

(** The first tracker with a destination, given that some tracker has it. *)
Lemma list_find_dest (ts : list podTracker) i t :
  ts !! i = Some t ->
  exists j t',
    list_find (hasDest (dest t)) ts = Some (j, t') /\
    ts !! j = Some t' /\ dest t' = dest t /\ (j <= i)%nat.
Proof.
  intros Hi. destruct (list_find (hasDest (dest t)) ts) as [[j t']|] eqn:Hfind.
  - exists j, t'. pose proof Hfind as Hf.
    apply list_find_Some in Hf as (Hj & Hd & Hmin).
    repeat split; [exact Hj | symmetry; exact Hd |].
    destruct (le_lt_dec j i) as [Hle | Hlt]; [exact Hle |].
    exfalso. apply (Hmin i t Hi Hlt). reflexivity.
  - exfalso. apply list_find_None in Hfind.
    apply (proj1 (Forall_lookup _ _) Hfind i t Hi). reflexivity.
Qed.

(** X9. After a call returned a tracker for a request with a session key,
    the store binds the key to that tracker's destination.  If the
    destination is not the empty string, the next call of any policy for
    that session returns a tracker with the same destination, with the
    no-op release and without changing anything; it is the same tracker
    when the destinations of the set are distinct. *)
Theorem session_sticks π π' p w s cb i w' :
  sessionFrom p = Ok s -> s <> "" ->
  run quiet π p w = Ok (cb, Some i, w') ->
  exists t,
    trackers w !! i = Some t /\ kv w' !! s = Some (dest t) /\
    (dest t <> "" ->
     exists j t',
       run quiet π' p w' = Ok (noop, Some j, w') /\
       trackers w' !! j = Some t' /\ dest t' = dest t /\ (j <= i)%nat /\
       (NoDup (dest <$> trackers w) -> j = i)).
Proof.
  intros Hs Hne Hr. pose proof (run_selection π p w s _ Hs Hr) as Hsel.
  assert (Hnext : forall t u,
            trackers w !! i = Some t -> trackers w' !! i = Some u -> dest u = dest t ->
            dest <$> trackers w' = dest <$> trackers w ->
            kv w' !! s = Some (dest t) -> dest t <> "" ->
            exists j t',
              run quiet π' p w' = Ok (noop, Some j, w') /\
              trackers w' !! j = Some t' /\ dest t' = dest t /\ (j <= i)%nat /\
              (NoDup (dest <$> trackers w) -> j = i)).
  { intros t u Hi Hi' Hu Hdests Hkv Hd.
    destruct (list_find_dest (trackers w') i u Hi') as (j & t' & Hfind & Hj & Hd' & Hle).
    rewrite Hu in Hfind, Hd'.
    exists j, t'. split; [| split; [exact Hj | split; [exact Hd' | split; [exact Hle |]]]].
    - apply run_bound. exact (getSession_hit p w' s (dest t) j t' Hs Hne Hkv Hd Hfind).
    - intros Hnodup. rewrite <- Hdests in Hnodup.
      apply (NoDup_lookup _ j i (dest t) Hnodup);
        rewrite list_lookup_fmap; [rewrite Hj | rewrite Hi']; simpl; congruence. }
  inversion Hsel as [i0 t Hne0 Hd Hkv Hfind | Hfree | q t Hfree Hq Hadm]; subst.
  - pose proof Hfind as Hf. apply list_find_Some in Hf as (Hi & _).
    exists t. split; [exact Hi |]. split; [exact Hkv |].
    intros _. apply (Hnext t t); auto.
  - exists t. split; [exact Hq |].
    assert (Hkv : bound_to s (dest t) (kv w) !! s = Some (dest t)).
    { unfold bound_to. apply nonempty_true in Hne. rewrite Hne. apply lookup_insert_eq. }
    split; [exact Hkv |].
    intros Hd. apply (Hnext t (taken π t)); auto.
    + cbn [trackers]. apply list_lookup_insert_eq. eapply lookup_lt_Some. exact Hq.
    + apply taken_dest.
    + cbn [trackers]. apply (insert_keeps_field dest _ _ _ _ Hq). apply taken_dest.
Qed.

Lemma session_sticks_witness :
  exists j t',
    run quiet (RoundRobin 2) sample.sticky
      (mkWorld (<[0%nat := claimed (sample.tracker "10.0.0.1" 0 1)]> sample.three)
               {["abc" := "10.0.0.1"]})
    = Ok (noop, Some j,
          mkWorld (<[0%nat := claimed (sample.tracker "10.0.0.1" 0 1)]> sample.three)
                  {["abc" := "10.0.0.1"]}) /\
    (<[0%nat := claimed (sample.tracker "10.0.0.1" 0 1)]> sample.three) !! j = Some t' /\
    dest t' = "10.0.0.1" /\ (j <= 0)%nat.
Proof.
  assert (Hrun : run quiet FirstAvailable sample.sticky (mkWorld sample.three ∅)
                 = Ok (releaseOf 0, Some 0%nat,
                       mkWorld (<[0%nat := claimed (sample.tracker "10.0.0.1" 0 1)]>
                                  sample.three)
                               {["abc" := "10.0.0.1"]})) by reflexivity.
  assert (Hkey : "abc" <> "") by discriminate.
  destruct (session_sticks FirstAvailable (RoundRobin 2) sample.sticky _ "abc" _ _ _
              eq_refl Hkey Hrun) as (t & Ht & _ & Hnext).
  simpl in Ht. inversion Ht; subst t.
  destruct Hnext as (j & t' & H1 & H2 & H3 & H4 & _); [discriminate |].
  exists j, t'. repeat split; assumption.
Defined.

Lemma first_with_capacity_unique ts q q' :
  first_with_capacity ts q -> first_with_capacity ts q' -> q = q'.
Proof.
  intros [(t & Ht & Hcap) Hmin] [(t' & Ht' & Hcap') Hmin'].
  destruct (lt_eq_lt_dec q q') as [[Hlt | Heq] | Hgt]; [| exact Heq |].
  - rewrite (Hmin' q t Hlt Ht) in Hcap. discriminate.
  - rewrite (Hmin q' t' Hgt Ht') in Hcap'. discriminate.
Qed.

Lemma first_with_capacity_or_none ts :
  (exists q, first_with_capacity ts q) \/
  (forall u, u ∈ ts -> hasCapacity u = false).
Proof.
  destruct (list_find (fun t => hasCapacity t = true) ts) as [[q t]|] eqn:Hfind.
  - left. exists q. apply list_find_Some in Hfind as (Hq & Hcap & Hmin).
    split; [eauto |]. intros j u Hj Hu.
    destruct (hasCapacity u) eqn:E; [| reflexivity].
    exfalso. exact (Hmin j u Hu Hj E).
  - right. apply list_find_None in Hfind. rewrite Forall_forall in Hfind.
    intros u Hu. destruct (hasCapacity u) eqn:E; [| reflexivity].
    exfalso. exact (Hfind u Hu E).
Qed.

Lemma getSession_no_bound p w s :
  sessionFrom p = Ok s -> no_bound_tracker s w ->
  getSession p w = Ok (None, unbind s w).
Proof.
  intros Hs Hfree.
  destruct (getSession_cases p w s Hs)
    as [(i & t & Hne & Hd & Hkv & Hfind & _) | [_ Hget]]; [| exact Hget].
  exfalso. destruct Hfree as [-> | [Hget | Hnone]].
  - apply Hne. reflexivity.
  - rewrite (Get_Some _ _ _ Hkv) in Hget. contradiction.
  - rewrite (Get_Some _ _ _ Hkv) in Hnone. congruence.
Qed.

(** X10. When no tracker is bound to the request's session and nothing
    interferes, [firstAvailableLBPolicy] returns the first tracker of the
    set that has capacity, with the release of its reservation, and it
    returns no target exactly when no tracker has capacity. *)
Theorem first_available_is_first p w s :
  sessionFrom p = Ok s -> no_bound_tracker s w ->
  (forall q,
     first_with_capacity (trackers w) q <->
     exists cb w', firstAvailableLBPolicy quiet p w = Ok (cb, Some q, w')) /\
  ((forall u, u ∈ trackers w -> hasCapacity u = false) <->
   exists cb w', firstAvailableLBPolicy quiet p w = Ok (cb, None, w')) /\
  (forall cb q w',
     firstAvailableLBPolicy quiet p w = Ok (cb, Some q, w') -> cb = releaseOf q).
Proof.
  intros Hs Hfree.
  pose proof (getSession_no_bound p w s Hs Hfree) as Hget.
  pose proof (unbind_unset s w) as Hunset.
  assert (Hpick : forall q, first_with_capacity (trackers w) q ->
            exists w', firstAvailableLBPolicy quiet p w = Ok (releaseOf q, Some q, w')).
  { intros q [(t & Ht & Hcap) Hmin].
    unfold firstAvailableLBPolicy. rewrite Hget, bind_Ok. unfold firstAvailable_select.
    rewrite (firstAvailable_loop_pick quiet p _ q t).
    - rewrite (reserved_quiet p _ q (claimed t) s Hs Hunset). eauto.
    - rewrite unbind_trackers. apply lookup_lt_Some in Ht. lia.
    - rewrite unbind_trackers. exact Ht.
    - exact Hcap.
    - intros j u Hj. rewrite unbind_trackers. apply Hmin. lia. }
  assert (Hnone : (forall u, u ∈ trackers w -> hasCapacity u = false) ->
            firstAvailableLBPolicy quiet p w = Ok (noop, None, unbind s w)).
  { intros Hfull.
    unfold firstAvailableLBPolicy. rewrite Hget, bind_Ok. unfold firstAvailable_select.
    apply firstAvailable_loop_none; [lia |].
    intros j u _ Hu. rewrite unbind_trackers in Hu.
    apply Hfull. eapply list_elem_of_lookup_2. exact Hu. }
  split; [| split].
  - intros q. split; [intros Hq; destruct (Hpick q Hq) as [w' H]; eauto |].
    intros (cb & w' & Hr).
    destruct (first_with_capacity_or_none (trackers w)) as [[q' Hq'] | Hfull].
    + destruct (Hpick q' Hq') as [w'' H]. rewrite H in Hr.
      inversion Hr; subst. exact Hq'.
    + rewrite (Hnone Hfull) in Hr. discriminate.
  - split; [intros Hfull; rewrite (Hnone Hfull); eauto |].
    intros (cb & w' & Hr).
    destruct (first_with_capacity_or_none (trackers w)) as [[q' Hq'] | Hfull];
      [| exact Hfull].
    destruct (Hpick q' Hq') as [w'' H]. rewrite H in Hr. discriminate.
  - intros cb q w' Hr.
    destruct (first_with_capacity_or_none (trackers w)) as [[q' Hq'] | Hfull].
    + destruct (Hpick q' Hq') as [w'' H]. rewrite H in Hr. inversion Hr; reflexivity.
    + rewrite (Hnone Hfull) in Hr. discriminate.
Qed.

Lemma first_available_is_first_witness :
  first_with_capacity
    [sample.tracker "10.0.0.1" 1 1; sample.tracker "10.0.0.2" 0 1] 1.
Proof.
  assert (Hfree : no_bound_tracker "abc"
            (mkWorld [sample.tracker "10.0.0.1" 1 1; sample.tracker "10.0.0.2" 0 1] ∅)).
  { right. left. reflexivity. }
  destruct (first_available_is_first sample.sticky
              (mkWorld [sample.tracker "10.0.0.1" 1 1; sample.tracker "10.0.0.2" 0 1] ∅)
              "abc" eq_refl Hfree) as (Hfirst & _).
  apply (proj2 (Hfirst 1%nat)).
  eexists _, _. reflexivity.
Defined.

Lemma firstAvailable_loop_no_panic e p w s : forall n i,
  sessionFrom p = Ok s -> (i + n <= length (trackers w))%nat ->
  firstAvailable_loop e p w n i <> Panic.
Proof.
  induction n as [|n IH]; intros i Hs Hlen; [discriminate |].
  simpl. destruct (lookup_lt_is_Some_2 (trackers w) i) as [u Hu]; [lia |].
  rewrite Hu. destruct (Reserve u) as [u'|].
  - pose proof (reserved_no_panic e p w i u' s Hs) as Hr.
    destruct (reserved e p w i u') as [[[] w2]|];
      [discriminate | discriminate | contradiction].
  - apply IH; [exact Hs | lia].
Qed.

Lemma choose_no_panic e p w q t s :
  sessionFrom p = Ok s -> choose e p w q t <> Panic.
Proof.
  intros Hs. unfold choose.
  destruct (setSession_cases e p (dest t) (before e w) s Hs) as [H | [w2 H]];
    rewrite H; discriminate.
Qed.

Lemma randomChoice2_select_panic e raw1 raw2 p w s :
  sessionFrom p = Ok s ->
  randomChoice2_select e raw1 raw2 p w = Panic <-> trackers w = [].
Proof.
  intros Hs. unfold randomChoice2_select. split.
  - intros Hpanic. destruct (trackers w) as [|t [|t' ts]] eqn:Hts; [reflexivity | |]; exfalso.
    + simpl in Hpanic. revert Hpanic. apply (choose_no_panic e p w 0 t s Hs).
    + replace (length (t :: t' :: ts) =? 1)%nat with false in Hpanic by reflexivity.
      destruct (contestants_spec raw1 raw2 (length (t :: t' :: ts))) as (_ & H1 & H2);
        [simpl; lia |].
      destruct (contestants raw1 raw2 (length (t :: t' :: ts))) as [r1 r2].
      simpl fst in H1. simpl snd in H2.
      destruct (lookup_lt_is_Some_2 (t :: t' :: ts) r1 H1) as [t1 Ht1].
      destruct (lookup_lt_is_Some_2 (t :: t' :: ts) r2 H2) as [t2 Ht2].
      unfold at_ in Hpanic. rewrite Ht1, Ht2 in Hpanic. rewrite !bind_Ok in Hpanic.
      destruct (getWeight t2 <? getWeight t1)%Z; revert Hpanic;
        apply (choose_no_panic e p w _ _ s Hs).
  - intros ->. reflexivity.
Qed.

(** X11. When the session key of the request can be read, neither
    [firstAvailableLBPolicy] nor the round-robin policy ever panics, and
    [randomChoice2Policy] panics exactly on the empty target set, whatever
    other requests do in between; when the key cannot be read every policy
    panics.  [randomLBPolicy] panics exactly on the empty target set and
    otherwise returns a tracker of the set with the no-op release and
    leaves the state as it is. *)
Theorem panics_of_the_policies e π p w raw :
  (sessionFrom p = Panic -> run e π p w = Panic) /\
  (forall s, sessionFrom p = Ok s ->
     (run e π p w = Panic <->
      (exists raw1 raw2, π = RandomChoice2 raw1 raw2) /\ trackers w = [])) /\
  (randomLBPolicy raw w = Panic <-> trackers w = []) /\
  (trackers w <> [] ->
   randomLBPolicy raw w = Ok (noop, Some (raw mod length (trackers w))%nat, w) /\
   (raw mod length (trackers w) < length (trackers w))%nat).
Proof.
  split; [| split; [| split]].
  - intros Hpanic.
    assert (Hget : getSession p w = Panic).
    { unfold getSession. rewrite Hpanic. reflexivity. }
    destruct π; simpl.
    + unfold firstAvailableLBPolicy. rewrite Hget. reflexivity.
    + unfold roundRobinPolicy. rewrite Hget. reflexivity.
    + unfold randomChoice2Policy. rewrite Hget. reflexivity.
  - intros s Hs.
    destruct (getSession_cases p w s Hs)
      as [(i & t & _ & _ & _ & Hfind & Hget) | [_ Hget]].
    + rewrite (run_bound e π p w i Hget). split; [discriminate |].
      intros [_ Hempty]. rewrite Hempty in Hfind. discriminate.
    + destruct π; simpl.
      * unfold firstAvailableLBPolicy. rewrite Hget, bind_Ok. split.
        -- intros H. exfalso. revert H. unfold firstAvailable_select.
           apply (firstAvailable_loop_no_panic e p _ s); [exact Hs | lia].
        -- intros [(raw1 & raw2 & H) _]. discriminate.
      * unfold roundRobinPolicy. rewrite Hget, bind_Ok. split.
        -- intros H. exfalso. unfold roundRobin_select in H.
           pose proof (roundRobin_loop_no_panic e p (unbind s w)
                         (wrapped idx (length (trackers (unbind s w))))
                         (length (trackers (unbind s w))) s
                         (length (trackers (unbind s w))) 0 Hs eq_refl) as Hno.
           destruct (roundRobin_loop e p (unbind s w) _ _ _ _) as [[[[cb pick] w'] idx']|];
             [discriminate |].
           apply Hno; [| reflexivity].
           destruct (length (trackers (unbind s w))); [left; reflexivity | right; lia].
        -- intros [(raw1 & raw2 & H) _]. discriminate.
      * unfold randomChoice2Policy. rewrite Hget, bind_Ok.
        rewrite (randomChoice2_select_panic e raw1 raw2 p _ s Hs), unbind_trackers.
        split; [intros H; split; eauto | intros [_ H]; exact H].
  - unfold randomLBPolicy. destruct (trackers w) as [|t ts] eqn:Hts.
    + split; reflexivity.
    + split; [| discriminate].
      replace (length (t :: ts) =? 0)%nat with false by reflexivity.
      unfold at_, Intn.
      destruct (lookup_lt_is_Some_2 (t :: ts) (raw mod length (t :: ts))%nat) as [u Hu];
        [apply Nat.mod_upper_bound; discriminate |].
      rewrite Hu. discriminate.
  - intros Hne. unfold randomLBPolicy.
    assert (Hpos : (length (trackers w) <> 0)%nat).
    { destruct (trackers w); [contradiction | discriminate]. }
    apply Nat.eqb_neq in Hpos as Hb. rewrite Hb.
    pose proof (Nat.mod_upper_bound raw _ Hpos) as Hlt.
    unfold at_, Intn.
    destruct (lookup_lt_is_Some_2 (trackers w) _ Hlt) as [u Hu].
    rewrite Hu. split; [reflexivity | exact Hlt].
Qed.

Lemma panics_of_the_policies_witness :
  run quiet (RandomChoice2 0 0) sample.plain (mkWorld [] ∅) = Panic /\
  randomLBPolicy 7 (mkWorld sample.three ∅) = Ok (noop, Some 1%nat, mkWorld sample.three ∅).
Proof.
  split.
  - apply (proj1 (proj2 (panics_of_the_policies quiet (RandomChoice2 0 0) sample.plain
                           (mkWorld [] ∅) 0)) "" eq_refl).
    split; [eauto | reflexivity].
  - apply (proj2 (proj2 (proj2 (panics_of_the_policies quiet FirstAvailable sample.plain
                                  (mkWorld sample.three ∅) 7)))).
    discriminate.
Defined.

(** X22. What the session lookup promises.  It never changes a tracker
    nor any key but the session's.  When it returns a tracker, the state
    is untouched and the tracker is the first of the set whose
    destination is the non-empty value bound to the session; when it
    returns none, no tracker of the set is bound to the session, and
    afterwards the session key, if there is one, is unset. *)
Theorem lookup_contract p w s r w' :
  sessionFrom p = Ok s -> getSession p w = Ok (r, w') ->
  trackers w' = trackers w /\
  (forall k, k <> s -> kv w' !! k = kv w !! k) /\
  (forall i, r = Some i ->
     w' = w /\ s <> "" /\
     exists t, trackers w !! i = Some t /\ dest t <> "" /\ kv w !! s = Some (dest t) /\
               forall j u, trackers w !! j = Some u -> (j < i)%nat -> dest u <> dest t) /\
  (r = None ->
     no_bound_tracker s w /\ (s = "" -> w' = w) /\ (s <> "" -> kv w' !! s = None)).
Proof.
  intros Hs Hget.
  destruct (getSession_cases p w s Hs)
    as [(i & t & Hne & Hd & Hkv & Hfind & Hhit) | [Hfree Hmiss]].
  - rewrite Hhit in Hget. inversion Hget; subst.
    apply list_find_Some in Hfind as (Hi & _ & Hmin).
    split; [reflexivity |]. split; [reflexivity |]. split; [| discriminate].
    intros i' Hi'. inversion Hi'; subst i'.
    split; [reflexivity |]. split; [exact Hne |].
    exists t. repeat split; try assumption.
    intros j u Hj Hlt Hu. apply (Hmin j u Hj Hlt). symmetry. exact Hu.
  - rewrite Hmiss in Hget. inversion Hget; subst.
    split; [apply unbind_trackers |]. split; [| split].
    + intros k Hk. unfold unbind. destruct (nonempty s); [| reflexivity].
      simpl. apply lookup_delete_ne. congruence.
    + discriminate.
    + intros _. split; [exact Hfree |]. split.
      * intros ->. reflexivity.
      * intros Hne. destruct (unbind_unset s w) as [-> | H]; [contradiction | exact H].
Qed.

Lemma lookup_contract_witness :
  (mkWorld sample.three (delete "abc" ({["abc" := "10.0.0.7"]} : gmap string string)))
  .(kv) !! "abc" = None.
Proof.
  assert (Hget : getSession sample.sticky (mkWorld sample.three {["abc" := "10.0.0.7"]})
                 = Ok (None, mkWorld sample.three
                               (delete "abc" ({["abc" := "10.0.0.7"]} : gmap string string))))
    by reflexivity.
  destruct (lookup_contract sample.sticky _ "abc" _ _ eq_refl Hget) as (_ & _ & _ & Hnone).
  destruct (Hnone eq_refl) as (_ & _ & Hunset). apply Hunset. discriminate.
Defined.

(** X23. What the establishment of a binding promises, whatever other
    requests do between its read and its write.  Without a session key
    it succeeds and changes nothing.  It refuses only when the session is
    bound to another destination, and then changes nothing.  When it
    succeeds with a session key, the store binds the session to the pick
    afterwards, and the binding it read was empty or the pick already. *)
Theorem establish_contract e p pick w s ok w' :
  sessionFrom p = Ok s -> setSession e p pick w = Ok (ok, w') ->
  (s = "" -> ok = true /\ w' = w) /\
  (ok = false -> w' = w /\ bound_elsewhere s pick w) /\
  (ok = true -> s <> "" ->
   kv w' !! s = Some pick /\ trackers w' = trackers (during e w) /\
   (Get (kv w) s = "" \/ Get (kv w) s = pick)).
Proof.
  intros Hs Hset. unfold setSession in Hset. rewrite Hs, bind_Ok in Hset.
  destruct (nonempty s) eqn:Es.
  - apply nonempty_true in Es.
    destruct (nonempty (Get (kv w) s)) eqn:Ed;
      [destruct (String.eqb (Get (kv w) s) pick) eqn:Ep |];
      simpl in Hset; inversion Hset; subst.
    + apply String.eqb_eq in Ep.
      split; [intros H; contradiction |]. split; [discriminate |].
      intros _ _. split; [apply lookup_insert_eq | split; [reflexivity | right; exact Ep]].
    + apply String.eqb_neq in Ep. apply nonempty_true in Ed.
      split; [intros H; contradiction |]. split; [| discriminate].
      intros _. split; [reflexivity | split; assumption].
    + apply nonempty_false in Ed.
      split; [intros H; contradiction |]. split; [discriminate |].
      intros _ _. split; [apply lookup_insert_eq | split; [reflexivity | left; exact Ed]].
  - apply nonempty_false in Es. inversion Hset; subst.
    split; [auto |]. split; [discriminate |]. intros _ H. contradiction.
Qed.

Lemma establish_contract_witness :
  bound_elsewhere "abc" "10.0.0.1" (mkWorld sample.two {["abc" := "10.0.0.9"]}).
Proof.
  assert (Hset : setSession sample.overlapping sample.sticky "10.0.0.1"
                   (mkWorld sample.two {["abc" := "10.0.0.9"]})
                 = Ok (false, mkWorld sample.two {["abc" := "10.0.0.9"]})) by reflexivity.
  assert (Hs : sessionFrom sample.sticky = Ok "abc") by reflexivity.
  destruct (establish_contract _ _ _ _ "abc" _ _ Hs Hset) as (_ & Hrefused & _).
  exact (proj2 (Hrefused eq_refl)).
Defined.

(** X24. For more than two targets the two draws reach every ordered
    pair of distinct positions, each by exactly one pair of draws (a
    first draw below the length, a second below the length minus one):
    moving the second draw past the first makes the pair uniform among
    the distinct pairs when the draws are uniform. *)
Theorem contestants_cover l i j :
  (2 < l)%nat -> (i < l)%nat -> (j < l)%nat -> i <> j ->
  exists raw1 raw2,
    (raw1 < l)%nat /\ (raw2 < l - 1)%nat /\ contestants raw1 raw2 l = (i, j) /\
    forall r1 r2,
      (r1 < l)%nat -> (r2 < l - 1)%nat -> contestants r1 r2 l = (i, j) ->
      r1 = raw1 /\ r2 = raw2.
Proof.
  intros Hl Hi Hj Hne.
  assert (Hdraw : forall r1 r2, (r1 < l)%nat -> (r2 < l - 1)%nat ->
            contestants r1 r2 l = (r1, if (r1 <=? r2)%nat then S r2 else r2)).
  { intros r1 r2 H1 H2. unfold contestants, Intn.
    apply Nat.ltb_lt in Hl. rewrite Hl.
    rewrite !Nat.mod_small by assumption. reflexivity. }
  exists i, (if (j <? i)%nat then j else j - 1)%nat.
  destruct (j <? i)%nat eqn:E; [apply Nat.ltb_lt in E | apply Nat.ltb_ge in E].
  - split; [exact Hi |]. split; [lia |]. split.
    + rewrite Hdraw by lia.
      replace (i <=? j)%nat with false by (symmetry; apply Nat.leb_gt; lia). reflexivity.
    + intros r1 r2 H1 H2 Hc. rewrite Hdraw in Hc by assumption.
      inversion Hc; subst r1. split; [reflexivity |].
      destruct (i <=? r2)%nat eqn:E2;
        [apply Nat.leb_le in E2 | apply Nat.leb_gt in E2]; lia.
  - split; [exact Hi |]. split; [lia |]. split.
    + rewrite Hdraw by lia.
      replace (i <=? j - 1)%nat with true by (symmetry; apply Nat.leb_le; lia).
      f_equal. lia.
    + intros r1 r2 H1 H2 Hc. rewrite Hdraw in Hc by assumption.
      inversion Hc; subst r1. split; [reflexivity |].
      destruct (i <=? r2)%nat eqn:E2;
        [apply Nat.leb_le in E2 | apply Nat.leb_gt in E2]; lia.
Qed.

Lemma contestants_cover_witness :
  exists raw1 raw2,
    (raw1 < 3)%nat /\ (raw2 < 3 - 1)%nat /\ contestants raw1 raw2 3 = (2%nat, 0%nat) /\
    forall r1 r2,
      (r1 < 3)%nat -> (r2 < 3 - 1)%nat -> contestants r1 r2 3 = (2%nat, 0%nat) ->
      r1 = raw1 /\ r2 = raw2.
Proof. apply (contestants_cover 3 2 0); lia. Defined.

End NetExtra.

(** ** The session key resolvers at their edges *)

Module ResolverExtra.
Import resolver ResolverProps.

Lemma marked_sticky_header r a :
  Header_Get (Header (marked r a)) "K-Session" = Header_Get (Header r) "K-Session".
Proof.
  unfold marked. destruct (nonempty _); [| reflexivity].
  unfold Header_Get, Header_Add, Values_Get. simpl Header.
  rewrite lookup_insert_ne by (vm_compute; discriminate). reflexivity.
Qed.

Lemma marked_parts r a :
  Host (marked r a) = Host r /\ Path (marked r a) = Path r /\ Query (marked r a) = Query r.
Proof. unfold marked. destruct (nonempty _); repeat split. Qed.

(** When the block that reads a path segment panics and when it finds
    nothing. *)
Lemma pathSegment_panic r p :
  handler.pathSegment r p = Panic <-> exists n, Atoi p = Some n /\ (n < 0)%Z.
Proof.
  unfold handler.pathSegment. fold (segments r). split.
  - destruct (nonempty p); [| discriminate].
    destruct (Atoi p) as [n|]; [| discriminate].
    destruct (n <? Z.of_nat (length (segments r)))%Z eqn:Hlt; [| discriminate].
    apply Z.ltb_lt in Hlt. unfold index.
    destruct (n <? 0)%Z eqn:Hneg.
    + intros _. exists n. apply Z.ltb_lt in Hneg. auto.
    + apply Z.ltb_ge in Hneg.
      destruct (lookup_lt_is_Some_2 (segments r) (Z.to_nat n)) as [x Hx]; [lia |].
      rewrite Hx. discriminate.
  - intros (n & Hn & Hneg).
    assert (Hp : nonempty p = true).
    { apply nonempty_true. intros ->. discriminate. }
    rewrite Hp, Hn.
    replace (n <? Z.of_nat (length (segments r)))%Z with true
      by (symmetry; apply Z.ltb_lt; lia).
    unfold index. replace (n <? 0)%Z with true by (symmetry; apply Z.ltb_lt; lia).
    reflexivity.
Qed.

(** X12. The resolvers panic exactly when a path rule with an index below
    zero is reached: no sticky-session header on the request, no header
    or query parameter configured before the path rule, and the path
    annotation a negative number; for [handler.getSession] the same holds
    for the revision path rule, when the rules before it do not match. *)
Theorem resolver_panics (r : Request) (a : gmap string string) :
  (net.sessionFrom (net.mkPair r a) = Panic <->
   Header_Get (Header r) "K-Session" = "" /\
   annot a "activator.knative.dev/session-header" = "" /\
   annot a "activator.knative.dev/session-query" = "" /\
   exists n, Atoi (annot a "activator.knative.dev/session-path") = Some n /\ (n < 0)%Z) /\
  (handler.getSession r a = Panic <->
   Header_Get (Header r) "K-Session" = "" /\
   annot a "activator.knative.dev/sticky-session-header-name" = "" /\
   annot a "activator.knative.dev/sticky-session-query-parameter" = "" /\
   ((exists n, Atoi (annot a "activator.knative.dev/sticky-session-path-segment") = Some n
               /\ (n < 0)%Z) \/
    (handler.pathSegment (marked r a)
       (annot a "activator.knative.dev/sticky-session-path-segment") = Ok None /\
     annot a "activator.knative.dev/sticky-revision-header-name" = "" /\
     annot a "activator.knative.dev/sticky-revision-query-parameter" = "" /\
     exists n, Atoi (annot a "activator.knative.dev/sticky-revision-path-segment") = Some n
               /\ (n < 0)%Z))).
Proof.
  split.
  - pose proof (pathSegment_panic r (annot a "activator.knative.dev/session-path")) as Hseg.
    unfold handler.pathSegment in Hseg.
    unfold net.sessionFrom. cbn [net.request net.annotations]. cbv zeta.
    destruct (nonempty (Header_Get (Header r) "K-Session")) eqn:E1.
    { apply nonempty_true in E1. split; [discriminate | intros [H _]; contradiction]. }
    destruct (nonempty (annot a "activator.knative.dev/session-header")) eqn:E2.
    { apply nonempty_true in E2. split; [discriminate | intros (_ & H & _); contradiction]. }
    destruct (nonempty (annot a "activator.knative.dev/session-query")) eqn:E3.
    { apply nonempty_true in E3.
      split; [discriminate | intros (_ & _ & H & _); contradiction]. }
    apply nonempty_false in E1, E2, E3.
    split.
    + intros Hpanic. repeat split; try assumption. apply Hseg.
      destruct (nonempty (annot a "activator.knative.dev/session-path"));
        [| discriminate].
      destruct (Atoi (annot a "activator.knative.dev/session-path")) as [n|];
        [| discriminate].
      destruct (n <? _)%Z; [| discriminate].
      rewrite Hpanic. reflexivity.
    + intros (_ & _ & _ & Hneg). apply Hseg in Hneg.
      destruct (nonempty (annot a "activator.knative.dev/session-path"));
        [| discriminate].
      destruct (Atoi (annot a "activator.knative.dev/session-path")) as [n|];
        [| discriminate].
      destruct (n <? _)%Z; [| discriminate].
      destruct (index _ n); [discriminate | reflexivity].
  - unfold handler.getSession. fold (marked r a).
    unfold handler.stickySessionHeaderName.
    rewrite marked_sticky_header.
    destruct (nonempty (Header_Get (Header r) "K-Session")) eqn:E1.
    { apply nonempty_true in E1. split; [discriminate | intros [H _]; contradiction]. }
    destruct (nonempty (annot a "activator.knative.dev/sticky-session-header-name")) eqn:E2.
    { apply nonempty_true in E2. split; [discriminate | intros (_ & H & _); contradiction]. }
    destruct (nonempty (annot a "activator.knative.dev/sticky-session-query-parameter")) eqn:E3.
    { apply nonempty_true in E3.
      split; [discriminate | intros (_ & _ & H & _); contradiction]. }
    apply nonempty_false in E1, E2, E3.
    pose proof (pathSegment_panic (marked r a)
                  (annot a "activator.knative.dev/sticky-session-path-segment")) as Hs.
    pose proof (pathSegment_panic (marked r a)
                  (annot a "activator.knative.dev/sticky-revision-path-segment")) as Hr.
    destruct (handler.pathSegment (marked r a)
                (annot a "activator.knative.dev/sticky-session-path-segment"))
      as [[x|]|] eqn:Es.
    + rewrite bind_Ok. split; [discriminate |].
      intros (_ & _ & _ & [Hneg | (H & _)]); [| discriminate].
      apply Hs in Hneg. discriminate.
    + rewrite bind_Ok.
      destruct (nonempty (annot a "activator.knative.dev/sticky-revision-header-name")) eqn:E5.
      { apply nonempty_true in E5. split; [discriminate |].
        intros (_ & _ & _ & [Hneg | (_ & H & _)]); [| contradiction].
        apply Hs in Hneg. discriminate. }
      destruct (nonempty (annot a "activator.knative.dev/sticky-revision-query-parameter")) eqn:E6.
      { apply nonempty_true in E6. split; [discriminate |].
        intros (_ & _ & _ & [Hneg | (_ & _ & H & _)]); [| contradiction].
        apply Hs in Hneg. discriminate. }
      apply nonempty_false in E5, E6.
      destruct (handler.pathSegment (marked r a)
                  (annot a "activator.knative.dev/sticky-revision-path-segment"))
        as [[y|]|] eqn:Er.
      * rewrite bind_Ok. split; [discriminate |].
        intros (_ & _ & _ & [Hneg | (_ & _ & _ & Hneg)]);
          [apply Hs in Hneg | apply Hr in Hneg]; discriminate.
      * rewrite bind_Ok. split; [discriminate |].
        intros (_ & _ & _ & [Hneg | (_ & _ & _ & Hneg)]);
          [apply Hs in Hneg | apply Hr in Hneg]; discriminate.
      * split; [| reflexivity]. intros _.
        repeat split; try assumption. right.
        repeat split; try assumption. apply Hr. reflexivity.
    + split; [| reflexivity]. intros _.
      repeat split; try assumption. left. apply Hs. reflexivity.
Qed.

Lemma resolver_panics_witness :
  net.sessionFrom
    (net.mkPair sample.crowded {["activator.knative.dev/session-path" := "-2"]}) = Panic.
Proof.
  apply (proj2 (proj1 (resolver_panics sample.crowded
                         {["activator.knative.dev/session-path" := "-2"]}))).
  repeat split. exists (-2)%Z. split; [reflexivity | lia].
Defined.

Lemma sessionFrom_explicit (r : Request) (a : gmap string string) :
  Header_Get (Header r) "K-Session" <> "" ->
  net.sessionFrom (net.mkPair r a) = Ok (Header_Get (Header r) "K-Session").
Proof.
  intros Hne. apply nonempty_true in Hne.
  unfold net.sessionFrom. cbn [net.request net.annotations]. cbv zeta.
  rewrite Hne. reflexivity.
Qed.

(** X13. A non-empty sticky-session header on the request is the session
    key for both resolvers, whatever the annotations say, also when a
    path annotation is below zero; the handler then adds nothing to the
    request but the deactivate marker. *)
Theorem explicit_header_wins (r : Request) (a : gmap string string) :
  Header_Get (Header r) "K-Session" <> "" ->
  net.sessionFrom (net.mkPair r a) = Ok (Header_Get (Header r) "K-Session") /\
  handler.getSession r a = Ok (Header_Get (Header r) "K-Session", marked r a).
Proof.
  intros Hne. split; [apply sessionFrom_explicit; exact Hne |].
  apply nonempty_true in Hne.
  - unfold handler.getSession. fold (marked r a).
    unfold handler.stickySessionHeaderName.
    rewrite marked_sticky_header, Hne. reflexivity.
Qed.

Lemma explicit_header_wins_witness :
  net.sessionFrom
    (net.mkPair (net.request sample.sticky)
       {["activator.knative.dev/session-path" := "-1"]}) = Ok "abc" /\
  handler.getSession (net.request sample.sticky)
    {["activator.knative.dev/sticky-session-path-segment" := "-1"]}
  = Ok ("abc", net.request sample.sticky).
Proof.
  assert (Hne : Header_Get (Header (net.request sample.sticky)) "K-Session" <> "")
    by discriminate.
  split.
  - etransitivity; [| reflexivity].
    exact (proj1 (explicit_header_wins (net.request sample.sticky)
                    {["activator.knative.dev/session-path" := "-1"]} Hne)).
  - etransitivity; [| reflexivity].
    exact (proj2 (explicit_header_wins (net.request sample.sticky)
                    {["activator.knative.dev/sticky-session-path-segment" := "-1"]} Hne)).
Defined.

(** What [handler.getSession] hands back: the marked request, or the
    marked request with the key recorded. *)
Lemma getSession_request r a k r' :
  handler.getSession r a = Ok (k, r') ->
  (r' = marked r a /\
   (Header_Get (Header r) "K-Session" = k \/ Header_Get (Header r) "K-Session" = "")) \/
  (Header_Get (Header r) "K-Session" = "" /\
   (k, r') = handler.addStickySessionHeader (marked r a) k).
Proof.
  unfold handler.getSession. fold (marked r a).
  unfold handler.stickySessionHeaderName. rewrite marked_sticky_header.
  destruct (nonempty (Header_Get (Header r) "K-Session")) eqn:E1.
  { intros H. inversion H; subst. left. auto. }
  apply nonempty_false in E1.
  assert (Hrec : forall x, Ok (handler.addStickySessionHeader (marked r a) x) = Ok (k, r') ->
            (k, r') = handler.addStickySessionHeader (marked r a) k).
  { intros x H. inversion H as [H']. rewrite recorded_sticky in H'.
    inversion H'; subst. rewrite recorded_sticky. reflexivity. }
  destruct (nonempty (annot a "activator.knative.dev/sticky-session-header-name")).
  { intros H. right. split; [exact E1 | exact (Hrec _ H)]. }
  destruct (nonempty (annot a "activator.knative.dev/sticky-session-query-parameter")).
  { intros H. right. split; [exact E1 | exact (Hrec _ H)]. }
  destruct (handler.pathSegment (marked r a)
              (annot a "activator.knative.dev/sticky-session-path-segment")) as [[x|]|];
    [rewrite bind_Ok | rewrite bind_Ok | intros H; simpl in H; discriminate H].
  { intros H. right. split; [exact E1 | exact (Hrec _ H)]. }
  destruct (nonempty (annot a "activator.knative.dev/sticky-revision-header-name")).
  { intros H. inversion H; subst. left. auto. }
  destruct (nonempty (annot a "activator.knative.dev/sticky-revision-query-parameter")).
  { intros H. inversion H; subst. left. auto. }
  destruct (handler.pathSegment (marked r a)
              (annot a "activator.knative.dev/sticky-revision-path-segment")) as [[y|]|];
    [rewrite bind_Ok | rewrite bind_Ok | intros H; simpl in H; discriminate H];
    intros H; inversion H; subst; left; auto.
Qed.

Lemma recorded_header_read (h : Values) k :
  Values_Get h "K-Session" = "" ->
  Header_Get (Header_Add h "K-Session" k) "K-Session" = k \/
  Header_Get (Header_Add h "K-Session" k) "K-Session" = "".
Proof.
  unfold Header_Get, Header_Add.
  change (CanonicalMIMEHeaderKey "K-Session") with "K-Session".
  unfold Values_Get. rewrite lookup_insert_eq.
  destruct (h !! "K-Session") as [[|x l]|]; simpl; auto.
Qed.

(** X14. On the request that [handler.getSession] hands back, the
    sticky-session header is either empty or the key it returned, so a
    policy that finds the header resolves the same key, whatever its own
    annotations.  Host, path and query are those of the incoming request,
    and so is every header but the sticky-session header and the
    deactivate marker. *)
Theorem forwarded_sticky_header r a k r' :
  handler.getSession r a = Ok (k, r') ->
  (Header_Get (Header r') "K-Session" = k \/ Header_Get (Header r') "K-Session" = "") /\
  (Header_Get (Header r') "K-Session" <> "" ->
   forall a', net.sessionFrom (net.mkPair r' a') = Ok k) /\
  Host r' = Host r /\ Path r' = Path r /\ Query r' = Query r /\
  (forall h, h <> "K-Session" -> h <> "K-Deactivate" -> Header r' !! h = Header r !! h).
Proof.
  intros Hget.
  assert (Hmark : forall h, h <> "K-Deactivate" ->
            Header (marked r a) !! h = Header r !! h).
  { intros h Hh. unfold marked. destruct (nonempty _); [| reflexivity].
    unfold Header_Add. simpl Header.
    change (CanonicalMIMEHeaderKey "K-Deactivate") with "K-Deactivate".
    apply lookup_insert_ne. congruence. }
  destruct (marked_parts r a) as (Hhost & Hpath & Hquery).
  assert (Hread : Header_Get (Header r') "K-Session" = k \/
                  Header_Get (Header r') "K-Session" = "").
  { destruct (getSession_request r a k r' Hget) as [[-> Hk] | [He Hrec]].
    - rewrite marked_sticky_header. exact Hk.
    - unfold handler.addStickySessionHeader in Hrec.
      destruct (nonempty k); inversion Hrec; subst.
      + simpl Header. apply recorded_header_read.
        rewrite <- marked_sticky_header with (a := a) in He. exact He.
      + right. rewrite marked_sticky_header. exact He. }
  split; [exact Hread |]. split.
  - intros Hne a'. rewrite (sessionFrom_explicit r' a' Hne).
    destruct Hread as [-> | H]; [reflexivity | contradiction].
  - destruct (getSession_request r a k r' Hget) as [[-> _] | [_ Hrec]].
    + repeat split; try assumption. intros h _ Hh. apply Hmark. exact Hh.
    + unfold handler.addStickySessionHeader in Hrec.
      destruct (nonempty k); inversion Hrec; subst.
      * repeat split; try assumption. intros h Hs Hd.
        simpl Header. unfold Header_Add.
        change (CanonicalMIMEHeaderKey "K-Session") with "K-Session".
        rewrite lookup_insert_ne by (intros E; apply Hs; symmetry; exact E).
        apply Hmark. exact Hd.
      * repeat split; try assumption. intros h _ Hh. apply Hmark. exact Hh.
Qed.

Lemma forwarded_sticky_header_witness :
  net.sessionFrom
    (net.mkPair (withHeader sample.crowded
                   (Header_Add (Header sample.crowded) "K-Session" "q1")) ∅)
  = Ok "q1".
Proof.
  assert (Hget : handler.getSession sample.crowded sample.crowdedAnnotations
                 = Ok ("q1", withHeader sample.crowded
                               (Header_Add (Header sample.crowded) "K-Session" "q1")))
    by reflexivity.
  destruct (forwarded_sticky_header _ _ _ _ Hget) as (_ & Hnext & _).
  apply Hnext. discriminate.
Defined.

End ResolverExtra.

(** ** Splitting and the context handler *)

Module HandlerExtra.
Import store handler StoreProps HandlerProps.

Lemma SplitN_no_sep sep (a : string) n :
  has_byte sep a = false -> SplitN a sep (S n) = [a].
Proof.
  destruct n as [|n]; [destruct a; reflexivity |].
  induction a as [|x a IH]; intros H; [reflexivity |].
  simpl in H. apply orb_false_iff in H as [Hx Ha].
  cbn [SplitN]. rewrite Hx. rewrite (IH Ha). reflexivity.
Qed.

Lemma SplitN_part sep (a s : string) n :
  has_byte sep a = false ->
  SplitN (a ++ String sep s) sep (S (S n)) = a :: SplitN s sep (S n).
Proof.
  induction a as [|x a IH]; intros H.
  - change ("" ++ String sep s) with (String sep s).
    cbn [SplitN]. rewrite Ascii.eqb_refl. reflexivity.
  - simpl in H. apply orb_false_iff in H as [Hx Ha].
    change (String x a ++ String sep s) with (String x (a ++ String sep s)).
    cbn [SplitN]. rewrite Hx. rewrite (IH Ha). reflexivity.
Qed.

(** What two-way splitting returns: the string itself when the separator
    does not occur, or the parts around its first occurrence. *)
Lemma SplitN_two_parts sep (v : string) :
  (has_byte sep v = false /\ SplitN v sep 2 = [v]) \/
  (exists x y, has_byte sep x = false /\ v = x ++ String sep y /\ SplitN v sep 2 = [x; y]).
Proof.
  induction v as [|c v IH].
  - left. split; reflexivity.
  - cbn [SplitN has_byte]. destruct (Ascii.eqb c sep) eqn:E.
    + right. apply Ascii.eqb_eq in E. subst c.
      exists "", v. repeat split. destruct v; reflexivity.
    + destruct IH as [[Hno Hv] | (x & y & Hx & Hv & Hs)].
      * left. rewrite Hv. split; [exact Hno | reflexivity].
      * right. exists (String c x), y. rewrite Hs. subst v.
        repeat split. simpl. rewrite E. exact Hx.
Qed.

(** X15. The identity string of a revision splits back into its namespace
    and name, provided the namespace contains no slash; and whatever the
    handler splits into two parts is the identity string of the identity
    it proceeds with. *)
Theorem identity_round_trip (n : NamespacedName) (v namespace name : string) :
  (has_byte Separator (Namespace n) = false ->
   SplitN (NamespacedName_String n) Separator 2 = [Namespace n; Name n]) /\
  (SplitN v Separator 2 = [namespace; name] ->
   NamespacedName_String (mkNamespacedName namespace name) = v /\
   has_byte Separator namespace = false).
Proof.
  split.
  - intros H. unfold NamespacedName_String.
    rewrite (SplitN_part Separator (Namespace n) (Name n) 0 H).
    destruct (Name n); reflexivity.
  - intros H. destruct (SplitN_two_parts Separator v) as [[_ Hv] | (x & y & Hx & Hv & Hs)].
    + rewrite Hv in H. discriminate.
    + rewrite Hs in H. inversion H; subst. split; [reflexivity | exact Hx].
Qed.

Lemma identity_round_trip_witness :
  SplitN (NamespacedName_String sample.helloID) Separator 2 = ["default"; "hello"] /\
  NamespacedName_String (mkNamespacedName "a" "b/c") = "a/b/c".
Proof.
  split.
  - apply (proj1 (identity_round_trip sample.helloID "" "" "")). reflexivity.
  - apply (proj2 (identity_round_trip sample.helloID "a/b/c" "a" "b/c")). reflexivity.
Defined.

Lemma CASValue_result (kv : gmap string string) key expected desired v kv' :
  CASValue kv key expected desired = (v, kv') ->
  (v = desired /\ kv' = <[key := desired]> kv) \/ (v = Get kv key /\ kv' = kv).
Proof.
  unfold CASValue, CAS. destruct (_ || _); intros H; inversion H; auto.
Qed.

Lemma stickyLoop_done c churn session revID revision id rev kv' :
  forall fuel i kv v,
    stickyLoop c churn session revID revision fuel i kv v = Done (id, rev, kv') ->
    kv' !! ("rev/" ++ session) = Some (NamespacedName_String id) /\
    ((id = revID /\ rev = revision) \/
     revisionLister c (Namespace id) (Name id) = inl rev).
Proof.
  induction fuel as [|fuel IH]; intros i kv v Hdone; [discriminate |].
  cbn [stickyLoop] in Hdone.
  destruct (CASValue (churn i kv) ("rev/" ++ session) v (NamespacedName_String revID))
    as [v1 kv1] eqn:Hcas.
  apply CASValue_result in Hcas.
  destruct (String.eqb v1 (NamespacedName_String revID)) eqn:Hown.
  - apply String.eqb_eq in Hown. inversion Hdone; subst id rev kv'.
    split; [| left; auto].
    destruct Hcas as [[_ ->] | [Hv ->]]; [apply lookup_insert_eq |].
    rewrite <- Hown, Hv. apply Get_nonempty.
    rewrite <- Hv, Hown. apply NamespacedName_String_nonempty.
  - apply String.eqb_neq in Hown.
    destruct Hcas as [[Hv _] | [Hv ->]]; [contradiction |].
    destruct (SplitN_two_parts Separator v1) as [[_ Hs] | (x & y & _ & Hjoin & Hs)];
      rewrite Hs in Hdone; [discriminate |].
    cbn [index Z.ltb Z.compare Z.to_nat lookup list_lookup] in Hdone.
    simpl in Hdone.
    destruct (revisionLister c x y) as [sticky | err] eqn:Hres.
    + inversion Hdone; subst id rev kv'. split; [| right; exact Hres].
      unfold NamespacedName_String. cbn [Namespace Name]. rewrite <- Hjoin, Hv.
      apply Get_nonempty. rewrite <- Hv, Hjoin. destruct x; discriminate.
    + apply (IH _ _ _ Hdone).
Qed.

Lemma has_byte_identity (n : NamespacedName) :
  has_byte Separator (NamespacedName_String n) = true.
Proof.
  unfold NamespacedName_String. induction (Namespace n) as [|x a IH].
  - reflexivity.
  - change (String x a ++ String Separator (Name n))
      with (String x (a ++ String Separator (Name n))).
    cbn [has_byte]. rewrite IH. apply orb_true_r.
Qed.

(** X16. When no other client writes the store, the loop panics exactly
    when it is entered with the session bound to a non-empty value that
    contains no slash. *)
Theorem loop_panics_exactly c churn session revID revision kv fuel :
  (forall i m, churn i m = m) ->
  stickyLoop c churn session revID revision fuel 0 kv "" = Panicked <->
  (1 <= fuel)%nat /\
  exists cur,
    kv !! ("rev/" ++ session) = Some cur /\ cur <> "" /\ has_byte Separator cur = false.
Proof.
  intros Hstill. split.
  - destruct fuel as [|fuel]; [discriminate |].
    cbn [stickyLoop]. rewrite Hstill.
    destruct (kv !! ("rev/" ++ session)) as [cur|] eqn:Hcur.
    + destruct (decide (cur = "")) as [-> | Hne].
      * rewrite (CASValue_match _ _ _ _ Hcur), String.eqb_refl. discriminate.
      * rewrite (CASValue_mismatch _ _ "" _ cur Hcur Hne).
        destruct (String.eqb cur (NamespacedName_String revID)) eqn:Hown; [discriminate |].
        destruct (SplitN_two_parts Separator cur) as [[Hno Hs] | (x & y & _ & _ & Hs)];
          rewrite Hs.
        -- intros _. split; [lia |]. exists cur. auto.
        -- simpl. destruct (revisionLister c x y); [discriminate |].
           destruct fuel as [|fuel]; [discriminate |].
           cbn [stickyLoop]. rewrite Hstill.
           rewrite (CASValue_match _ _ _ _ Hcur), String.eqb_refl. discriminate.
    + rewrite (CASValue_unset _ _ _ Hcur), String.eqb_refl. discriminate.
  - intros [Hfuel (cur & Hcur & Hne & Hno)].
    destruct fuel as [|fuel]; [lia |].
    apply (stickyLoop_no_separator c churn session revID revision kv fuel cur).
    + rewrite Hstill. exact Hcur.
    + exact Hne.
    + intros ->. rewrite has_byte_identity in Hno. discriminate.
    + apply SplitN_no_sep. exact Hno.
Qed.

Lemma loop_panics_exactly_witness :
  stickyLoop sample.cluster sample.still "abc" sample.helloID sample.hello
    4 0 {["rev/abc" := "garbage"]} "" = Panicked.
Proof.
  assert (Hstill : forall i m, sample.still i m = m) by reflexivity.
  apply (proj2 (loop_panics_exactly sample.cluster sample.still "abc" sample.helloID
                  sample.hello {["rev/abc" := "garbage"]} 4 Hstill)).
  split; [lia |]. exists "garbage". repeat split. discriminate.
Defined.

(** X17. When the handler forwards a request, the revision it attaches
    is the one the lister has under the identity it attaches; the request
    forwarded is the one the resolver handed back; without a session key
    the store is as it was, and with one the store binds the session to
    the forwarded identity. *)
Theorem forwarded_revision c churn fuel r kv rev id r' kv' :
  ServeHTTP c churn fuel r kv = Done (Forward rev id r', kv') ->
  revisionLister c (Namespace id) (Name id) = inl rev /\
  exists annotations k,
    handler.getSession r annotations = Ok (k, r') /\
    (k = "" -> kv' = kv) /\
    (k <> "" -> kv' !! ("rev/" ++ k) = Some (NamespacedName_String id)).
Proof.
  unfold ServeHTTP.
  match goal with
  | |- context [let '(_, _) := ?e in _] => destruct e as [name namespace]
  end.
  destruct (revisionLister c namespace name) as [revision | err] eqn:Hrev;
    [| destruct err; discriminate].
  destruct (serviceLister c namespace _) as [service | err];
    [| destruct err; discriminate].
  destruct (handler.getSession r (Annotations service)) as [[k r1]|] eqn:Hget;
    [| discriminate].
  destruct (nonempty k) eqn:Hk.
  - destruct (stickyLoop c churn k _ revision fuel 0 kv "")
      as [[[id1 rev1] kv1] | |] eqn:Hloop; try discriminate.
    intros H. inversion H; subst.
    destruct (stickyLoop_done _ _ _ _ _ _ _ _ _ _ _ _ Hloop) as [Hbind Hres].
    split.
    + destruct Hres as [[-> ->] | Hres]; [exact Hrev | exact Hres].
    + exists (Annotations service), k. split; [exact Hget |]. split.
      * intros ->. discriminate.
      * intros _. exact Hbind.
  - intros H. inversion H; subst. split; [exact Hrev |].
    exists (Annotations service), k. split; [exact Hget |]. split.
    + reflexivity.
    + intros Hne. apply nonempty_true in Hne. congruence.
Qed.

Lemma forwarded_revision_witness :
  revisionLister sample.cluster (Namespace sample.helloID) (Name sample.helloID)
  = inl sample.hello.
Proof.
  assert (Hrun : ServeHTTP sample.cluster sample.still 3 sample.helloRequest ∅
                 = Done (Forward sample.hello sample.helloID sample.helloRequest,
                         {["rev/abc" := "default/hello"]})) by reflexivity.
  exact (proj1 (forwarded_revision _ _ _ _ _ _ _ _ _ Hrun)).
Defined.

(** X18. When the handler answers with an error, the store is as it was
    and the status is 404 or 500; the loop is never entered, so the
    answer does not depend on what other clients do. *)
Theorem error_leaves_the_store c churn fuel r kv status kv' :
  ServeHTTP c churn fuel r kv = Done (Error status, kv') ->
  kv' = kv /\ (status = 404%nat \/ status = 500%nat) /\
  forall churn' fuel', ServeHTTP c churn' fuel' r kv = Done (Error status, kv).
Proof.
  unfold ServeHTTP.
  match goal with
  | |- context [let '(_, _) := ?e in _] => destruct e as [name namespace]
  end.
  destruct (revisionLister c namespace name) as [revision | err].
  - destruct (serviceLister c namespace _) as [service | err].
    + destruct (handler.getSession r (Annotations service)) as [[k r1]|];
        [| discriminate].
      destruct (nonempty k).
      * destruct (stickyLoop c churn k _ revision fuel 0 kv "")
          as [[[id1 rev1] kv1] | |]; discriminate.
      * discriminate.
    + intros H. destruct err; inversion H; subst; repeat split; auto.
  - intros H. destruct err; inversion H; subst; repeat split; auto.
Qed.

Lemma error_leaves_the_store_witness :
  ServeHTTP sample.cluster sample.flapping 0
    (mkRequest ∅ "nothing.default.svc.cluster.local" "/" ∅) {["rev/abc" := "gone/a"]}
  = Done (Error 404, {["rev/abc" := "gone/a"]}).
Proof.
  assert (Hrun : ServeHTTP sample.cluster sample.still 3
                   (mkRequest ∅ "nothing.default.svc.cluster.local" "/" ∅)
                   {["rev/abc" := "gone/a"]}
                 = Done (Error 404, {["rev/abc" := "gone/a"]})) by reflexivity.
  exact (proj2 (proj2 (error_leaves_the_store _ _ _ _ _ _ _ Hrun)) sample.flapping 0%nat).
Defined.

(** X19. Two requests of one session, one after the other, with no other
    client in between: the first, finding the session unbound, binds it
    to its own revision with one compare-and-swap; the second, asking for
    another revision, is overridden to the first one's, as long as the
    lister resolves it, and leaves the binding as it is.  (The namespace
    must contain no slash for the binding to be read back.) *)
Theorem second_request_follows c churn session a b revA revB resolved kv fuel :
  (forall i m, churn i m = m) ->
  kv !! ("rev/" ++ session) = None ->
  has_byte Separator (Namespace a) = false ->
  NamespacedName_String b <> NamespacedName_String a ->
  revisionLister c (Namespace a) (Name a) = inl resolved ->
  stickyLoop c churn session a revA (S fuel) 0 kv ""
    = Done (a, revA, <["rev/" ++ session := NamespacedName_String a]> kv) /\
  stickyLoop c churn session b revB (S fuel) 0
      (<["rev/" ++ session := NamespacedName_String a]> kv) ""
    = Done (a, resolved, <["rev/" ++ session := NamespacedName_String a]> kv).
Proof.
  intros Hstill Hnone Hslash Hother Hres. split.
  - cbn [stickyLoop]. rewrite Hstill, (CASValue_unset _ _ _ Hnone).
    rewrite String.eqb_refl. reflexivity.
  - cbn [stickyLoop]. rewrite Hstill.
    rewrite (CASValue_mismatch _ _ "" _ (NamespacedName_String a))
      by (apply lookup_insert_eq || apply NamespacedName_String_nonempty).
    replace (String.eqb (NamespacedName_String a) (NamespacedName_String b)) with false
      by (symmetry; apply String.eqb_neq; congruence).
    unfold NamespacedName_String at 1 2.
    rewrite (SplitN_part Separator (Namespace a) (Name a) 0 Hslash).
    replace (SplitN (Name a) Separator 1) with [Name a] by (destruct (Name a); reflexivity).
    simpl. rewrite Hres. destruct a. reflexivity.
Qed.

Lemma second_request_follows_witness :
  stickyLoop sample.cluster sample.still "abc" (mkNamespacedName "default" "other")
    sample.hello 1 0 {["rev/abc" := "default/hello"]} ""
  = Done (sample.helloID, sample.hello, {["rev/abc" := "default/hello"]}).
Proof.
  assert (Hstill : forall i m, sample.still i m = m) by reflexivity.
  assert (Hnone : (∅ : gmap string string) !! ("rev/" ++ "abc") = None) by reflexivity.
  assert (Hother : NamespacedName_String (mkNamespacedName "default" "other")
                   <> NamespacedName_String sample.helloID) by discriminate.
  destruct (second_request_follows sample.cluster sample.still "abc" sample.helloID
              (mkNamespacedName "default" "other") sample.hello sample.hello
              sample.hello ∅ 0 Hstill Hnone eq_refl Hother eq_refl) as [_ H].
  etransitivity; [| exact H]. reflexivity.
Defined.

Lemma SplitN_host (name namespace rest : string) :
  has_byte "."%char name = false -> has_byte "."%char namespace = false ->
  SplitN (name ++ "." ++ namespace ++ ".svc." ++ rest) "."%char 4
  = [name; namespace; "svc"; rest].
Proof.
  intros Hname Hns.
  change (name ++ "." ++ namespace ++ ".svc." ++ rest)
    with (name ++ String "."%char (namespace ++ String "."%char ("svc" ++ String "."%char rest))).
  rewrite (SplitN_part _ name _ 2 Hname), (SplitN_part _ namespace _ 1 Hns).
  rewrite (SplitN_part _ "svc" rest 0) by reflexivity.
  destruct rest; reflexivity.
Qed.

Lemma append_empty (s : string) : s ++ "" = s.
Proof.
  induction s as [|x s IH]; [reflexivity |].
  change (String x s ++ "") with (String x (s ++ "")). rewrite IH. reflexivity.
Qed.

Lemma SplitN_port (domain port : string) :
  has_byte ":"%char domain = false ->
  port = "" \/ (exists p, port = String ":"%char p) ->
  hd "" (SplitN (domain ++ port) ":"%char 2) = domain.
Proof.
  intros Hd [-> | [p ->]].
  - rewrite append_empty.
    rewrite (SplitN_no_sep _ domain 1 Hd). reflexivity.
  - rewrite (SplitN_part _ domain p 0 Hd). reflexivity.
Qed.

(** X20. Which revision the handler looks up.  With both revision headers
    on the request it is the one they name, whatever the host.  With one
    of them missing and a host of the form
    name.namespace.svc.domain, with or without a port, where the domain
    is the cluster's, it is namespace/name.  When the lister does not have
    that revision the request is answered with the lister's error. *)
Theorem looked_up_revision c churn fuel r kv name namespace port err :
  revisionLister c namespace name = inr err ->
  (Header_Get (Header r) (RevisionHeaderName c) = name ->
   Header_Get (Header r) (RevisionHeaderNamespace c) = namespace ->
   name <> "" -> namespace <> "" ->
   ServeHTTP c churn fuel r kv = Done (sendError err, kv)) /\
  (Header_Get (Header r) (RevisionHeaderName c) = "" \/
   Header_Get (Header r) (RevisionHeaderNamespace c) = "" ->
   has_byte "."%char name = false -> has_byte "."%char namespace = false ->
   has_byte ":"%char (clusterDomainName c) = false ->
   port = "" \/ (exists p, port = String ":"%char p) ->
   Host r = name ++ "." ++ namespace ++ ".svc." ++ clusterDomainName c ++ port ->
   ServeHTTP c churn fuel r kv = Done (sendError err, kv)).
Proof.
  intros Hres. split.
  - intros Hname Hns Hn1 Hn2. unfold ServeHTTP. rewrite Hname, Hns.
    apply String.eqb_neq in Hn1, Hn2. rewrite Hn1, Hn2. simpl.
    rewrite Hres. reflexivity.
  - intros Hmissing Hname Hns Hdomain Hport Hhost. unfold ServeHTTP.
    assert (Hcond : String.eqb (Header_Get (Header r) (RevisionHeaderName c)) ""
                    || String.eqb (Header_Get (Header r) (RevisionHeaderNamespace c)) ""
                    = true).
    { destruct Hmissing as [-> | ->]; [reflexivity |]. apply orb_true_r. }
    rewrite Hcond, Hhost, (SplitN_host name namespace _ Hname Hns).
    rewrite (SplitN_port _ port Hdomain Hport), !String.eqb_refl. simpl.
    rewrite Hres. reflexivity.
Qed.

Lemma looked_up_revision_witness :
  ServeHTTP sample.cluster sample.still 0
    (mkRequest ∅ "nothing.default.svc.cluster.local:8080" "/" ∅) ∅
  = Done (Error 404, ∅).
Proof.
  assert (Hres : revisionLister sample.cluster "default" "nothing" = inr NotFound)
    by reflexivity.
  destruct (looked_up_revision sample.cluster sample.still 0
              (mkRequest ∅ "nothing.default.svc.cluster.local:8080" "/" ∅) ∅
              "nothing" "default" ":8080" NotFound Hres) as [_ Hhost].
  apply Hhost.
  - left. reflexivity.
  - reflexivity.
  - reflexivity.
  - reflexivity.
  - right. exists "8080". reflexivity.
  - reflexivity.
Defined.

Lemma Split_nonempty s sep : Split s sep <> [].
Proof.
  destruct s as [|c r]; [discriminate |]. simpl.
  destruct (Ascii.eqb c sep); [discriminate |].
  destruct (Split r sep); discriminate.
Qed.

Lemma concat_cons_byte sep c (h : string) (t : list string) :
  String.concat sep (String c h :: t) = String c (String.concat sep (h :: t)).
Proof. destruct t; reflexivity. Qed.

(** X21. Splitting on a byte loses nothing: the parts joined by that byte
    give the string back, no part contains the byte, there is at least
    one part, and a string without the byte is its own single part (so
    the path without slashes has exactly one segment, the empty path one
    empty segment). *)
Theorem Split_round_trip (s : string) (sep : ascii) :
  String.concat (String sep "") (Split s sep) = s /\
  Forall (fun part => has_byte sep part = false) (Split s sep) /\
  (0 < length (Split s sep))%nat /\
  (has_byte sep s = false -> Split s sep = [s]).
Proof.
  induction s as [|c r (Hjoin & Hparts & Hlen & Hone)].
  - split; [reflexivity |]. split; [repeat constructor |].
    split; [simpl; lia | reflexivity].
  - cbn [Split has_byte]. destruct (Ascii.eqb c sep) eqn:E.
    + apply Ascii.eqb_eq in E. subst c.
      destruct (Split r sep) as [|h t] eqn:Hs; [simpl in Hlen; lia |].
      repeat split.
      * change (String.concat (String sep "") ("" :: h :: t))
          with (String sep (String.concat (String sep "") (h :: t))).
        rewrite Hjoin. reflexivity.
      * constructor; [reflexivity | exact Hparts].
      * simpl. lia.
      * discriminate.
    + destruct (Split r sep) as [|h t] eqn:Hs; [simpl in Hlen; lia |].
      repeat split.
      * rewrite concat_cons_byte, Hjoin. reflexivity.
      * inversion Hparts; subst. constructor; [| assumption].
        simpl. rewrite E. assumption.
      * simpl. lia.
      * simpl. intros Hr. specialize (Hone Hr). inversion Hone; subst. reflexivity.
Qed.

Lemma Split_round_trip_witness : Split "healthz" "/" = ["healthz"].
Proof.
  apply (proj2 (proj2 (proj2 (Split_round_trip "healthz" "/")))). reflexivity.
Defined.

End HandlerExtra.
